(** * The action DSL of goa (design/dsl/action.go)

    A shallow embedding of [Action], [Routing], the route constructors,
    [Headers], [Params], [Payload] and [newAttribute].

    The Go code builds a tree of definitions by mutating heap objects through
    pointers while a package-level context stack and a package-level error
    list are updated on the side.  The embedding keeps that shape: a [World]
    holds one arena per struct type (a pointer is an index into the arena of
    its type, [None] is Go's nil), the design registry, the context stack and
    the error list; DSL functions are computations in a state monad whose
    second outcome is a Go run-time panic (nil pointer dereference, write to
    a nil map). *)

From stdpp Require Import gmap strings list fin_maps.
From Stdlib Require Import ZArith.

Local Open Scope string_scope.
Local Open Scope list_scope.

(** ** Pointers *)

(** A [*T] is [None] (nil) or the index of a [T] in the arena of [T]s. *)
Abbreviation ptr := (option nat).

(** ** Data model (package design) *)

(** [DataType] is a Go interface; the values this file builds or copies are
    primitives and [Object], a map from member name to attribute. *)
Inductive DataType :=
  | Primitive (kind : string)
  | Object (members : gmap string ptr).

Record AttributeDefinition := mkAttribute {
  Attribute_Type : option DataType;
  Attribute_Reference : option DataType
}.

Record UserTypeDefinition := mkUserType {
  UserType_AttributeDefinition : ptr;
  TypeName : string
}.

Record MediaTypeDefinition := mkMediaType {
  MediaType_Type : option DataType
}.

(** The definitions that can be the evaluation context of a callback (the Go
    interface [DSLDefinition] with its dynamic type as the tag). *)
Inductive DSLDefinition :=
  | DResource (r : ptr)
  | DAction (a : ptr)
  | DResponse (r : ptr)
  | DAttribute (att : ptr).

Record RouteDefinition := mkRoute {
  Verb : string;
  Path : string;
  Route_Parent : ptr
}.

Record ActionDefinition := mkAction {
  Action_Parent : ptr;
  Action_Name : string;
  Action_Routes : list ptr;
  Action_Headers : ptr;
  Action_Params : ptr;
  Action_Payload : ptr
}.

(** [Resource_Actions] is a Go map: [None] is the nil map, which can be read
    but not written. *)
Record ResourceDefinition := mkResource {
  Resource_Name : string;
  Resource_BasePath : string;
  Resource_MediaType : string;
  Resource_Actions : option (gmap string ptr);
  Resource_Headers : ptr;
  Resource_Params : ptr
}.

(** [Response_Parent] is an interface value: nil, a resource or an action. *)
Record ResponseDefinition := mkResponse {
  Response_Parent : option DSLDefinition;
  Response_Headers : ptr
}.

(** The package-level [Design]: user types and media types by name. *)
Record APIDefinition := mkAPI {
  Types : gmap string ptr;
  MediaTypes : gmap string MediaTypeDefinition
}.

(** ** The world: arenas, registry, context stack, error list *)

Record World := mkWorld {
  resources : list ResourceDefinition;
  actions : list ActionDefinition;
  responses : list ResponseDefinition;
  routes : list RouteDefinition;
  attributes : list AttributeDefinition;
  usertypes : list UserTypeDefinition;
  Design : APIDefinition;
  ctxStack : list DSLDefinition;
  Errors : list string
}.

Definition set_resources (f : list ResourceDefinition → list ResourceDefinition) (w : World) : World :=
  mkWorld (f (resources w)) (actions w) (responses w) (routes w) (attributes w)
          (usertypes w) (Design w) (ctxStack w) (Errors w).

Definition set_actions (f : list ActionDefinition → list ActionDefinition) (w : World) : World :=
  mkWorld (resources w) (f (actions w)) (responses w) (routes w) (attributes w)
          (usertypes w) (Design w) (ctxStack w) (Errors w).

Definition set_responses (f : list ResponseDefinition → list ResponseDefinition) (w : World) : World :=
  mkWorld (resources w) (actions w) (f (responses w)) (routes w) (attributes w)
          (usertypes w) (Design w) (ctxStack w) (Errors w).

Definition set_routes (f : list RouteDefinition → list RouteDefinition) (w : World) : World :=
  mkWorld (resources w) (actions w) (responses w) (f (routes w)) (attributes w)
          (usertypes w) (Design w) (ctxStack w) (Errors w).

Definition set_attributes (f : list AttributeDefinition → list AttributeDefinition) (w : World) : World :=
  mkWorld (resources w) (actions w) (responses w) (routes w) (f (attributes w))
          (usertypes w) (Design w) (ctxStack w) (Errors w).

Definition set_usertypes (f : list UserTypeDefinition → list UserTypeDefinition) (w : World) : World :=
  mkWorld (resources w) (actions w) (responses w) (routes w) (attributes w)
          (f (usertypes w)) (Design w) (ctxStack w) (Errors w).

Definition set_ctxStack (f : list DSLDefinition → list DSLDefinition) (w : World) : World :=
  mkWorld (resources w) (actions w) (responses w) (routes w) (attributes w)
          (usertypes w) (Design w) (f (ctxStack w)) (Errors w).

Definition set_Errors (f : list string → list string) (w : World) : World :=
  mkWorld (resources w) (actions w) (responses w) (routes w) (attributes w)
          (usertypes w) (Design w) (ctxStack w) (f (Errors w)).

(** ** The monad of DSL computations *)

Inductive Outcome (A : Type) :=
  | Ret (a : A) (w : World)
  | Panic (w : World).
Arguments Ret {A} a w.
Arguments Panic {A} w.

Definition M (A : Type) : Type := World → Outcome A.

Definition ret {A} (a : A) : M A := λ w, Ret a w.

Definition bind {A B} (m : M A) (k : A → M B) : M B :=
  λ w, match m w with
       | Ret a w' => k a w'
       | Panic w' => Panic w'
       end.

Definition panic {A} : M A := λ w, Panic w.
Definition gets {A} (f : World → A) : M A := λ w, Ret (f w) w.
Definition modify (f : World → World) : M unit := λ w, Ret tt (f w).

Declare Scope dsl_scope.
Delimit Scope dsl_scope with dsl.
Notation "x <- m ;; k" := (bind m (λ x, k))
  (at level 100, m at next level, right associativity) : dsl_scope.
Notation "m ;; k" := (bind m (λ _, k))
  (at level 100, right associativity) : dsl_scope.
Local Open Scope dsl_scope.

(** [when b m]: the Go statement [if b { m }]. *)
Definition when (b : bool) (m : M unit) : M unit := if b then m else ret tt.

(** [for _, x := range l { f x }]. *)
Fixpoint forM_ {A} (l : list A) (f : A → M unit) : M unit :=
  match l with
  | [] => ret tt
  | x :: l' => f x ;; forM_ l' f
  end.

(** Reading through a pointer: nil panics.  An index outside the arena does
    not exist in Go; the model panics there too. *)
Definition deref {T} (heap : World → list T) (p : ptr) : M T :=
  λ w, match p with
       | Some l => match heap w !! l with
                   | Some v => Ret v w
                   | None => Panic w
                   end
       | None => Panic w
       end.

(** [&T{...}]: a new object at the end of its arena. *)
Definition alloc {T} (heap : World → list T)
    (set : (list T → list T) → World → World) (v : T) : M ptr :=
  λ w, Ret (Some (length (heap w))) (set (λ h, h ++ [v]) w).

(** [p.f = v]: read-modify-write through [p]. *)
Definition update {T} (heap : World → list T)
    (set : (list T → list T) → World → World) (p : ptr) (f : T → T) : M unit :=
  v <- deref heap p ;;
  match p with
  | Some l => modify (set (λ h, <[l := f v]> h))
  | None => panic
  end.

(** A callback [func()]: a computation on the world.  A nil function value
    is [None] where the source tests for it. *)
Definition DSL : Type := M unit.

(** ** The runner (package dsl, outside action.go) *)

(** Modelled from the spec: [ReportError] is not in action.go.  Errors are
    appended to the process-wide error list and nothing is thrown; the
    message is the format with its arguments filled in. *)
Definition ReportError (msg : string) : M unit :=
  modify (set_Errors (λ es, es ++ [msg])).

(** Modelled from the spec: the message of the context error of section 4.1,
    for an operation used outside a block of kind [kind]. *)
Definition incompatibleDSL (kind : string) : string :=
  "must be used inside a block of kind " +:+ kind.

(** The innermost active evaluation frame. *)
Definition current (w : World) : option DSLDefinition := head (ctxStack w).

(** Modelled from the spec: the context resolver [currentOfKind(K, required)]
    of section 4.1, one function per kind as action.go calls them.  The
    innermost frame is returned when it is of the kind; otherwise the result
    is [ok = false], with a context error when [required]. *)
Definition actionDefinition (failIfNotAction : bool) : M (ptr * bool) :=
  c <- gets current ;;
  match c with
  | Some (DAction a) => ret (a, true)
  | _ => when failIfNotAction (ReportError (incompatibleDSL "Action")) ;;
         ret (None, false)
  end.

Definition resourceDefinition (failIfNotResource : bool) : M (ptr * bool) :=
  c <- gets current ;;
  match c with
  | Some (DResource r) => ret (r, true)
  | _ => when failIfNotResource (ReportError (incompatibleDSL "Resource")) ;;
         ret (None, false)
  end.

Definition responseDefinition (failIfNotResponse : bool) : M (ptr * bool) :=
  c <- gets current ;;
  match c with
  | Some (DResponse r) => ret (r, true)
  | _ => when failIfNotResponse (ReportError (incompatibleDSL "Response")) ;;
         ret (None, false)
  end.

(** Modelled from the spec: the callback executor of section 4.2.  The target
    becomes the active context for the duration of the callback and is popped
    afterwards; the result says whether the callback ran without reporting an
    error.  A panic of the callback is not caught. *)
Definition executeDSL (dsl : DSL) (ctx : DSLDefinition) : M bool :=
  initCount <- gets (λ w, length (Errors w)) ;;
  modify (set_ctxStack (cons ctx)) ;;
  dsl ;;
  modify (set_ctxStack (drop 1)) ;;
  count <- gets (λ w, length (Errors w)) ;;
  ret (Nat.leb count initCount).

(** ** Field assignments *)

Definition set_Action_Routes (rs : list ptr) (a : ActionDefinition) : ActionDefinition :=
  mkAction (Action_Parent a) (Action_Name a) rs (Action_Headers a) (Action_Params a)
           (Action_Payload a).

Definition set_Action_Headers (h : ptr) (a : ActionDefinition) : ActionDefinition :=
  mkAction (Action_Parent a) (Action_Name a) (Action_Routes a) h (Action_Params a)
           (Action_Payload a).

Definition set_Action_Params (p : ptr) (a : ActionDefinition) : ActionDefinition :=
  mkAction (Action_Parent a) (Action_Name a) (Action_Routes a) (Action_Headers a) p
           (Action_Payload a).

Definition set_Action_Payload (p : ptr) (a : ActionDefinition) : ActionDefinition :=
  mkAction (Action_Parent a) (Action_Name a) (Action_Routes a) (Action_Headers a)
           (Action_Params a) p.

Definition set_Resource_Actions (m : option (gmap string ptr)) (r : ResourceDefinition)
    : ResourceDefinition :=
  mkResource (Resource_Name r) (Resource_BasePath r) (Resource_MediaType r) m
             (Resource_Headers r) (Resource_Params r).

Definition set_Resource_Headers (h : ptr) (r : ResourceDefinition) : ResourceDefinition :=
  mkResource (Resource_Name r) (Resource_BasePath r) (Resource_MediaType r)
             (Resource_Actions r) h (Resource_Params r).

Definition set_Resource_Params (p : ptr) (r : ResourceDefinition) : ResourceDefinition :=
  mkResource (Resource_Name r) (Resource_BasePath r) (Resource_MediaType r)
             (Resource_Actions r) (Resource_Headers r) p.

Definition set_Route_Parent (a : ptr) (r : RouteDefinition) : RouteDefinition :=
  mkRoute (Verb r) (Path r) a.

Definition set_Response_Headers (h : ptr) (r : ResponseDefinition) : ResponseDefinition :=
  mkResponse (Response_Parent r) h.

Definition set_Attribute_Type (t : option DataType) (a : AttributeDefinition)
    : AttributeDefinition :=
  mkAttribute t (Attribute_Reference a).

(** ** Messages *)

(** The double quote character, for the quoted [%s] of the formats. *)
Definition dquote : string := String (Ascii.ascii_of_nat 34) EmptyString.

(** [fmt.Sprintf] of the duplicate wildcard format: the wildcard, the full
    path of the resource and the path of the route, each between quotes. *)
Definition duplicateWildcard (wc fullPath path : string) : string :=
  "duplicate wildcard " +:+ dquote +:+ wc +:+ dquote +:+
  " in resource base path " +:+ dquote +:+ fullPath +:+ dquote +:+
  " and action route " +:+ dquote +:+ path +:+ dquote.

Definition tooManyArguments : string := "too many arguments given to Payload".

Definition invalidArguments : string :=
  "invalid arguments in Payload call, must be (type), (dsl) or (type, dsl)".

(** [fmt.Sprintf] of [unknown payload type %s]. *)
Definition unknownPayloadType (name : string) : string :=
  "unknown payload type " +:+ name.

Definition headersAlreadyDefined : string := "headers already defined".

(** ** The arguments of [Payload] *)

(** The interface [DataStructure]: a value with a [Definition()] method.  The
    method reads the world and may panic (a nil receiver). *)
Record DataStructure := mkDataStructure {
  Definition_ : M ptr
}.

(** The dynamic type of the [interface{}] argument of [Payload], in the order
    of its type switch; [PInt], [PBool] and [PNil] stand for the values that
    match no case. *)
Inductive PayloadArg :=
  | PFunc (actual : option DSL)
  | PAttribute (actual : ptr)
  | PDataStructure (actual : DataStructure)
  | PString (actual : string)
  | PInt (n : Z)
  | PBool (b : bool)
  | PNil.

(** ** action.go *)

Section ActionDSL.

(** [inflect.Camelize], from an external package. *)
Variable camelize : string → string.

(** [design.ExtractWildcards]: the wildcard names of a path, in order. *)
Variable ExtractWildcards : string → list string.

(** The method [FullPath] of a resource: the base path of its actions,
    computed from the design and the resources. *)
Variable FullPath : APIDefinition → list ResourceDefinition → ResourceDefinition → string.

(** [a.Parent.FullPath()] *)
Definition parentFullPath (a : ptr) : M string :=
  act <- deref actions a ;;
  res <- deref resources (Action_Parent act) ;;
  gets (λ w, FullPath (Design w) (resources w) res).

(** [a.Parent.MediaType] *)
Definition parentMediaType (a : ptr) : M string :=
  act <- deref actions a ;;
  res <- deref resources (Action_Parent act) ;;
  ret (Resource_MediaType res).

(** [newAttribute] creates a new attribute definition using the media type
    with the given identifier as base type. *)
Definition newAttribute (baseMT : string) : M ptr :=
  mts <- gets (λ w, MediaTypes (Design w)) ;;
  let base := match mts !! baseMT with
              | Some mt => MediaType_Type mt
              | None => None
              end in
  alloc attributes set_attributes (mkAttribute None base).

(** [r.Actions[name] = action] (line 56): a write to the nil map panics. *)
Definition storeAction (r : ptr) (name : string) (action : ptr) : M unit :=
  res <- deref resources r ;;
  match Resource_Actions res with
  | Some m => update resources set_resources r
                     (set_Resource_Actions (Some (<[name := action]> m)))
  | None => panic
  end.

(** [Action] implements the action definition DSL (lines 41-58): in the
    block of a resource, the action of that name is looked up in the
    resource, created when absent, the callback is executed against it, and
    it is stored under its name when the execution succeeded.  The callback
    is a function value that is not nil. *)
Definition Action (name : string) (dsl : DSL) : M unit :=
  rok <- resourceDefinition true ;;
  let (r, ok) := (rok : ptr * bool) in
  if ok then
    res <- deref resources r ;;
    when (bool_decide (Resource_Actions res = None))
         (update resources set_resources r (set_Resource_Actions (Some ∅))) ;;
    res <- deref resources r ;;
    action <- match default ∅ (Resource_Actions res) !! name with
              | Some action => ret action
              | None => alloc actions set_actions (mkAction r name [] None None None)
              end ;;
    done <- executeDSL dsl (DAction action) ;;
    if negb done then ret tt
    else storeAction r name action
  else ret tt.

(** The two nested loops over the wildcards of the resource path and of the
    route path (lines 70-77). *)
Definition reportDuplicates (a r : ptr) (rwcs wcs : list string) : M unit :=
  forM_ rwcs (λ rwc,
    forM_ wcs (λ wc,
      if String.eqb rwc wc then
        fp <- parentFullPath a ;;
        rt <- deref routes r ;;
        ReportError (duplicateWildcard wc fp (Path rt))
      else ret tt)).

(** The body of the loop over the routes (lines 68-79). *)
Definition attachRoute (a r : ptr) : M unit :=
  fp <- parentFullPath a ;;
  let rwcs := ExtractWildcards fp in
  rt <- deref routes r ;;
  let wcs := ExtractWildcards (Path rt) in
  reportDuplicates a r rwcs wcs ;;
  update routes set_routes r (set_Route_Parent a) ;;
  act <- deref actions a ;;
  update actions set_actions a (set_Action_Routes (Action_Routes act ++ [r])).

(** [Routing] lists the action routes (lines 65-82). *)
Definition Routing (rts : list ptr) : M unit :=
  aok <- actionDefinition true ;;
  let (a, ok) := (aok : ptr * bool) in
  if ok then forM_ rts (attachRoute a)
  else ret tt.

(** The route constructors, one per HTTP method (lines 85-122). *)
Definition GET (path : string) : M ptr := alloc routes set_routes (mkRoute "GET" path None).
Definition HEAD (path : string) : M ptr := alloc routes set_routes (mkRoute "HEAD" path None).
Definition POST (path : string) : M ptr := alloc routes set_routes (mkRoute "POST" path None).
Definition PUT (path : string) : M ptr := alloc routes set_routes (mkRoute "PUT" path None).
Definition DELETE (path : string) : M ptr := alloc routes set_routes (mkRoute "DELETE" path None).
Definition TRACE (path : string) : M ptr := alloc routes set_routes (mkRoute "TRACE" path None).
Definition CONNECT (path : string) : M ptr := alloc routes set_routes (mkRoute "CONNECT" path None).
Definition PATCH (path : string) : M ptr := alloc routes set_routes (mkRoute "PATCH" path None).

(** The two type assertions on [r.Parent] in the response branch of
    [Headers]: the media type identifier of the owning resource. *)
Definition responseMediaType (parent : option DSLDefinition) : M string :=
  match parent with
  | Some (DResource pa) =>
      res <- deref resources pa ;; ret (Resource_MediaType res)
  | Some (DAction pa) => parentMediaType pa
  | _ => ret EmptyString
  end.

(** [Headers] describes HTTP headers, of an action, else of a resource, else
    of a response (lines 137-164). *)
Definition Headers (dsl : DSL) : M unit :=
  aok <- actionDefinition false ;;
  let (a, ok) := (aok : ptr * bool) in
  if ok then
    mt <- parentMediaType a ;;
    headers <- newAttribute mt ;;
    done <- executeDSL dsl (DAttribute headers) ;;
    when done (update actions set_actions a (set_Action_Headers headers))
  else
    rok <- resourceDefinition false ;;
    let (r, ok) := (rok : ptr * bool) in
    if ok then
      res <- deref resources r ;;
      headers <- newAttribute (Resource_MediaType res) ;;
      done <- executeDSL dsl (DAttribute headers) ;;
      when done (update resources set_resources r (set_Resource_Headers headers))
    else
      rok <- responseDefinition true ;;
      let (r, ok) := (rok : ptr * bool) in
      if ok then
        rsp <- deref responses r ;;
        if bool_decide (Response_Headers rsp ≠ None) then
          ReportError headersAlreadyDefined
        else
          mtid <- responseMediaType (Response_Parent rsp) ;;
          h <- newAttribute mtid ;;
          done <- executeDSL dsl (DAttribute h) ;;
          when done (update responses set_responses r (set_Response_Headers h))
      else ret tt.

(** [Params] describes the parameters of an action, else of a resource
    (lines 179-191). *)
Definition Params (dsl : DSL) : M unit :=
  aok <- actionDefinition false ;;
  let (a, ok) := (aok : ptr * bool) in
  if ok then
    mt <- parentMediaType a ;;
    params <- newAttribute mt ;;
    done <- executeDSL dsl (DAttribute params) ;;
    when done (update actions set_actions a (set_Action_Params params))
  else
    rok <- resourceDefinition true ;;
    let (r, ok) := (rok : ptr * bool) in
    if ok then
      res <- deref resources r ;;
      params <- newAttribute (Resource_MediaType res) ;;
      done <- executeDSL dsl (DAttribute params) ;;
      when done (update resources set_resources r (set_Resource_Params params))
    else ret tt.

(** The type switch of [Payload]: the attribute and the callback that the
    source argument gives. *)
Definition payloadSource (a : ptr) (p : PayloadArg) : M (ptr * option DSL) :=
  match p with
  | PFunc actual =>
      mt <- parentMediaType a ;;
      att <- newAttribute mt ;;
      update attributes set_attributes att
             (set_Attribute_Type (Some (Object ∅))) ;;
      ret (att, actual)
  | PAttribute actual => ret (actual, None)
  | PDataStructure actual =>
      att <- Definition_ actual ;; ret (att, None)
  | PString actual =>
      types <- gets (λ w, Types (Design w)) ;;
      let ok := bool_decide (is_Some (types !! actual)) in
      let ut := default None (types !! actual) in
      when (negb ok) (ReportError (unknownPayloadType actual)) ;;
      u <- deref usertypes ut ;;
      ret (UserType_AttributeDefinition u, None)
  | _ => ret (None, None)
  end.

(** Lines 241-246: the payload is named after the action and its resource
    and assigned to the action. *)
Definition assignPayload (a att : ptr) : M unit :=
  act <- deref actions a ;;
  res <- deref resources (Action_Parent act) ;;
  let rn := camelize (Resource_Name res) in
  act <- deref actions a ;;
  let an := camelize (Action_Name act) in
  u <- alloc usertypes set_usertypes (mkUserType att (an +:+ rn +:+ "Payload")) ;;
  update actions set_actions a (set_Action_Payload u).

(** [Payload] implements the action payload DSL (lines 208-248): [p] is the
    source and [dsls] the variadic callbacks. *)
Definition Payload (p : PayloadArg) (dsls : list (option DSL)) : M unit :=
  if Nat.ltb 1 (length dsls) then ReportError tooManyArguments
  else
    aok <- actionDefinition true ;;
    let (a, ok) := (aok : ptr * bool) in
    if ok then
      src <- payloadSource a p ;;
      let (att, dsl) := (src : ptr * option DSL) in
      dsl <- match dsls with
             | [d] => when (bool_decide (is_Some dsl)) (ReportError invalidArguments) ;;
                      ret d
             | _ => ret dsl
             end ;;
      match dsl with
      | Some f => executeDSL f (DAttribute att) ;; ret tt
      | None => ret tt
      end ;;
      assignPayload a att
    else ret tt.

End ActionDSL.

(** * Observations on a world *)

(** [addErrors errs w]: [w] after [errs] have been reported, in order. *)
Definition addErrors (errs : list string) (w : World) : World :=
  set_Errors (λ es, es ++ errs) w.

(** The world an outcome ends in. *)
Definition outcomeWorld {A} (o : Outcome A) : World :=
  match o with
  | Ret _ w => w
  | Panic w => w
  end.

(** The action behind [a], and its parent resource. *)
Definition actionOf (w : World) (a : ptr) : option ActionDefinition :=
  l ← a; actions w !! l.

Definition parentOf (w : World) (a : ptr) : option ResourceDefinition :=
  act ← actionOf w a; r ← Action_Parent act; resources w !! r.

Definition actionName (w : World) (a : ptr) : option string :=
  Action_Name <$> actionOf w a.

Definition resourceName (w : World) (a : ptr) : option string :=
  Resource_Name <$> parentOf w a.

(** The user type that [a.Payload] points to. *)
Definition payloadOf (w : World) (a : ptr) : option UserTypeDefinition :=
  act ← actionOf w a; u ← Action_Payload act; usertypes w !! u.

Definition payloadTypeName (w : World) (a : ptr) : option string :=
  TypeName <$> payloadOf w a.

(** [a.Payload] itself: [Some None] is an action whose payload is nil. *)
Definition payloadPtr (w : World) (a : ptr) : option ptr :=
  Action_Payload <$> actionOf w a.

(** The name that section 4.5 of the design gives to a payload. *)
Definition synthesizedName (camelize : string → string) (actionName resourceName : string)
    : string :=
  camelize actionName +:+ camelize resourceName +:+ "Payload".

(** The source values that match no case of the type switch of [Payload]. *)
Definition unsupportedShape (p : PayloadArg) : bool :=
  match p with
  | PInt _ | PBool _ | PNil => true
  | _ => false
  end.

(** The entry of the action mapping of the resource [r] under [name]. *)
Definition declared (w : World) (r : nat) (name : string) : option ptr :=
  res ← resources w !! r; m ← Resource_Actions res; m !! name.

(** The path of the route behind [p]. *)
Definition pathOf (w : World) (p : ptr) : string :=
  default EmptyString (Path <$> (l ← p; routes w !! l)).

(** The errors that the wildcards of a resource path [P] and of a route path
    [Q] give: one per pair of equal names, resource wildcards outermost. *)
Definition duplicateErrors (ExtractWildcards : string → list string) (P Q : string)
    : list string :=
  flat_map (λ rwc,
    flat_map (λ wc, if String.eqb rwc wc then [duplicateWildcard wc P Q] else [])
             (ExtractWildcards Q))
    (ExtractWildcards P).

(** [mentions msg s]: the text [s] occurs in the message [msg]. *)
Definition mentions (msg s : string) : Prop :=
  ∃ pre post, msg = pre +:+ s +:+ post.

(** [actionAt FullPath w a act P]: [a] points to the action [act], whose
    parent resource exists and has full path [P]. *)
Definition actionAt
    (FullPath : APIDefinition → list ResourceDefinition → ResourceDefinition → string)
    (w : World) (a : nat) (act : ActionDefinition) (P : string) : Prop :=
  actions w !! a = Some act ∧
  ∃ r res, Action_Parent act = Some r ∧ resources w !! r = Some res ∧
           FullPath (Design w) (resources w) res = P.

(** A route pointer as the route constructors give them: not nil. *)
Definition validRoute (w : World) (p : ptr) : Prop :=
  ∃ l rt, p = Some l ∧ routes w !! l = Some rt.

(** What a run of the loop of [Routing] over [rts] leaves, from [w] to [w']:
    the routes appended in order to those of the action, the parent of each
    of them set, the duplicates of each of them reported in order, and the
    rest of the world as it was. *)
Definition attached (ExtractWildcards : string → list string) (P : string)
    (a : nat) (act : ActionDefinition) (rts : list ptr) (w w' : World) : Prop :=
  Design w' = Design w ∧ resources w' = resources w ∧ responses w' = responses w ∧
  attributes w' = attributes w ∧ usertypes w' = usertypes w ∧ ctxStack w' = ctxStack w ∧
  actions w' = <[a := set_Action_Routes (Action_Routes act ++ rts) act]> (actions w) ∧
  Errors w' = Errors w ++ flat_map (λ p, duplicateErrors ExtractWildcards P (pathOf w p)) rts ∧
  ∀ l rt, routes w !! l = Some rt →
          routes w' !! l =
            Some (if bool_decide (Some l ∈ rts) then set_Route_Parent (Some a) rt else rt).

(** The base type that [newAttribute] finds for a media type identifier:
    none when the identifier is not registered. *)
Definition baseType (w : World) (baseMT : string) : option DataType :=
  MediaTypes (Design w) !! baseMT ≫= MediaType_Type.

(** The world in which the callback of an attribute block starts: a new
    attribute with the base type of [baseMT] is the innermost context. *)
Definition blockWorld (baseMT : string) (w : World) : World :=
  set_ctxStack (cons (DAttribute (Some (length (attributes w)))))
    (set_attributes (λ h, h ++ [mkAttribute None (baseType w baseMT)]) w).

(** Whether the callback that took [w] to [mid] reported no error. *)
Definition succeeded (w mid : World) : bool :=
  Nat.leb (length (Errors mid)) (length (Errors w)).

(** The media type identifier that the response branch of [Headers] takes
    from the parent of the response; [None] when the parent is a nil
    pointer, or an action without resource. *)
Definition ownerMediaType (w : World) (parent : option DSLDefinition) : option string :=
  match parent with
  | Some (DResource pa) => Resource_MediaType <$> (l ← pa; resources w !! l)
  | Some (DAction pa) => Resource_MediaType <$> parentOf w pa
  | _ => Some EmptyString
  end.

(** A callback that only works on attributes, as the bodies of attribute
    blocks do. *)
Definition attributesOnly (dsl : DSL) : Prop :=
  ∀ w, ∃ atts, dsl w = Ret tt (set_attributes (λ _, atts) w).

(** The world in which a callback given to [Payload] as the source starts:
    a new attribute of type [Object], empty, with the base type of [baseMT]
    as reference, is the innermost context. *)
Definition inlineWorld (baseMT : string) (w : World) : World :=
  set_ctxStack (cons (DAttribute (Some (length (attributes w)))))
    (set_attributes (λ h, h ++ [mkAttribute (Some (Object ∅)) (baseType w baseMT)]) w).

(** A computation that, when it returns, leaves the context stack as it
    found it. *)
Definition keepsStack {A} (m : M A) : Prop :=
  ∀ w x w', m w = Ret x w' → ctxStack w' = ctxStack w.

(** The route constructors of action.go with the verb each is named after. *)
Definition routeConstructors : list (string * (string → M ptr)) :=
  [("GET", GET); ("HEAD", HEAD); ("POST", POST); ("PUT", PUT);
   ("DELETE", DELETE); ("TRACE", TRACE); ("CONNECT", CONNECT); ("PATCH", PATCH)].

(** The world after lines 43-45 of [Action]: the nil action map of the
    resource [r] has become an empty map. *)
Definition ensureActions (r : nat) (w : World) : World :=
  match resources w !! r with
  | Some res =>
      match Resource_Actions res with
      | None => set_resources (λ h, <[r := set_Resource_Actions (Some ∅) res]> h) w
      | Some _ => w
      end
  | None => w
  end.

(** The world in which the callback of a new action starts: the action, with
    its parent and its name and nothing else, is the innermost context. *)
Definition declaring (r : nat) (name : string) (w : World) : World :=
  set_ctxStack (cons (DAction (Some (length (actions w)))))
    (set_actions (λ h, h ++ [mkAction (Some r) name [] None None None]) w).

(** The duplicate wildcard errors of the routes [rts] against the resource
    path [P], route after route. *)
Definition routingErrors (ExtractWildcards : string → list string) (P : string)
    (w : World) (rts : list ptr) : list string :=
  flat_map (λ p, duplicateErrors ExtractWildcards P (pathOf w p)) rts.





(** * Instances for running the code *)

(** A stand-in for [inflect.Camelize], enough to run examples: the first
    letter and every letter after an underscore are put in upper case and the
    underscores are dropped. *)
Definition upper (c : Ascii.ascii) : Ascii.ascii :=
  let n := Ascii.nat_of_ascii c in
  if Nat.leb 97 n && Nat.leb n 122 then Ascii.ascii_of_nat (n - 32) else c.

Fixpoint camelizeFrom (cap : bool) (s : string) : string :=
  match s with
  | EmptyString => EmptyString
  | String c s' =>
      if Ascii.eqb c (Ascii.ascii_of_nat 95) then camelizeFrom true s'
      else String (if cap then upper c else c) (camelizeFrom false s')
  end.

Definition exampleCamelize : string → string := camelizeFrom true.

(** A stand-in for [design.ExtractWildcards], enough to run examples: the
    names that follow a colon or a star, up to the next slash. *)
Fixpoint wildcardsFrom (cur : option string) (s : string) : list string :=
  match s with
  | EmptyString => match cur with Some n => [n] | None => [] end
  | String c s' =>
      match cur with
      | Some n =>
          if Ascii.eqb c (Ascii.ascii_of_nat 47) then n :: wildcardsFrom None s'
          else wildcardsFrom (Some (n +:+ String c EmptyString)) s'
      | None =>
          if Ascii.eqb c (Ascii.ascii_of_nat 58) || Ascii.eqb c (Ascii.ascii_of_nat 42)
          then wildcardsFrom (Some EmptyString) s'
          else wildcardsFrom None s'
      end
  end.

Definition exampleExtractWildcards : string → list string := wildcardsFrom None.

(** A stand-in for [FullPath]: a resource without parent in an API without
    base path. *)
Definition exampleFullPath (d : APIDefinition) (rs : list ResourceDefinition)
    (r : ResourceDefinition) : string :=
  Resource_BasePath r.

(** The resource "Account" and its action "Update". *)
Definition accountResource : ResourceDefinition :=
  mkResource "Account" "/accounts/:accountID" EmptyString None None None.

Definition updateAction : ActionDefinition :=
  mkAction (Some 0) "Update" [] None None None.

(** No block is open. *)
Definition noContext : World :=
  mkWorld [] [] [] [] [] [] (mkAPI ∅ ∅) [] [].

(** The "Account" resource being declared, with no action yet. *)
Definition account : World :=
  mkWorld [accountResource] [] [] [] [] [] (mkAPI ∅ ∅) [DResource (Some 0)] [].

(** "Update" of "Account" being declared: the action is the innermost
    context, inside its resource. *)
Definition updateAccount : World :=
  mkWorld [accountResource] [updateAction] [] [] [] [] (mkAPI ∅ ∅)
          [DAction (Some 0); DResource (Some 0)] [].

(** The same, in a design that has the user type "AccountPayload". *)
Definition updateAccountTyped : World :=
  mkWorld [accountResource] [updateAction] [] []
          [mkAttribute (Some (Object ∅)) None]
          [mkUserType (Some 0) "AccountPayload"]
          (mkAPI {["AccountPayload" := Some 0]} ∅)
          [DAction (Some 0); DResource (Some 0)] [].

(** "Update" of "Account" with three routes built and not yet attached; the
    second one reuses the wildcard of the resource path. *)
Definition updateAccountRoutes : World :=
  mkWorld [accountResource] [updateAction] []
          [mkRoute "PUT" "/:id" None;
           mkRoute "PUT" "/:accountID/rename" None;
           mkRoute "PATCH" "/files/*filepath" None]
          [] [] (mkAPI ∅ ∅)
          [DAction (Some 0); DResource (Some 0)] [].

(** Two callbacks for an action: each builds a route and attaches it. *)
Definition putRoute : DSL :=
  p <- PUT "/:id" ;; Routing exampleExtractWildcards exampleFullPath [p].

Definition patchRoute : DSL :=
  p <- PATCH "/:id" ;; Routing exampleExtractWildcards exampleFullPath [p].

(** "Update" declared on "Account" once, then a second time. *)
Definition declaredOnce : World := outcomeWorld (Action "Update" putRoute account).
Definition declaredTwice : World := outcomeWorld (Action "Update" patchRoute declaredOnce).

(** A response of "Update" without headers, as the only open block, and the
    same after a first [Headers] with a callback that declares nothing. *)
Definition updateResponse : World :=
  mkWorld [accountResource] [updateAction] [mkResponse (Some (DAction (Some 0))) None]
          [] [] [] (mkAPI ∅ ∅) [DResponse (Some 0)] [].

Definition headersSet : World := outcomeWorld (Headers (ret tt) updateResponse).

(** "Account" with a registered default media type, its action "Update" and
    a response of that action without headers; [inContext] opens the blocks
    given, innermost first. *)
Definition mediaAccount : ResourceDefinition :=
  mkResource "Account" "/accounts/:accountID" "application/vnd.account" None None None.

Definition mediaDesign : APIDefinition :=
  mkAPI ∅ {["application/vnd.account" := mkMediaType (Some (Primitive "String"))]}.

Definition mediaWorld : World :=
  mkWorld [mediaAccount] [updateAction] [mkResponse (Some (DAction (Some 0))) None]
          [] [] [] mediaDesign [] [].

Definition inContext (stack : list DSLDefinition) (w : World) : World :=
  set_ctxStack (λ _, stack) w.

(** "Account" being declared, with three routes built for its first action;
    the second one reuses the wildcard of the resource path. *)
Definition accountWithRoutes : World :=
  mkWorld [accountResource] [] []
          [mkRoute "PUT" "/:id" None;
           mkRoute "PUT" "/:accountID/rename" None;
           mkRoute "PATCH" "/files/*filepath" None]
          [] [] (mkAPI ∅ ∅) [DResource (Some 0)] [].





(** * Properties *)

(** ** The error list *)

(** Projections of updated worlds. *)
Ltac wsimpl :=
  unfold addErrors, set_resources, set_actions, set_responses, set_routes, set_attributes,
    set_usertypes, set_ctxStack, set_Errors in *;
  simpl in *.

Lemma addErrors_nil w : addErrors [] w = w.
Proof. destruct w; unfold addErrors, set_Errors; simpl. by rewrite app_nil_r. Qed.

Lemma addErrors_app e1 e2 w : addErrors e2 (addErrors e1 w) = addErrors (e1 ++ e2) w.
Proof. unfold addErrors, set_Errors; simpl. by rewrite app_assoc. Qed.

Lemma ReportError_eq msg w : ReportError msg w = Ret tt (addErrors [msg] w).
Proof. reflexivity. Qed.

(** ** The context resolver *)

Lemma actionDefinition_action b a w :
  current w = Some (DAction a) → actionDefinition b w = Ret (a, true) w.
Proof. intros H. unfold actionDefinition, bind, gets. by rewrite H. Qed.

Lemma actionDefinition_silent w :
  (∀ a, current w ≠ Some (DAction a)) → actionDefinition false w = Ret (None, false) w.
Proof.
  intros H. unfold actionDefinition, bind, gets.
  destruct (current w) as [[]|] eqn:E; try reflexivity.
  by destruct (H a).
Qed.

Lemma resourceDefinition_resource b r w :
  current w = Some (DResource r) → resourceDefinition b w = Ret (r, true) w.
Proof. intros H. unfold resourceDefinition, bind, gets. by rewrite H. Qed.

Lemma resourceDefinition_silent w :
  (∀ r, current w ≠ Some (DResource r)) → resourceDefinition false w = Ret (None, false) w.
Proof.
  intros H. unfold resourceDefinition, bind, gets.
  destruct (current w) as [[]|] eqn:E; try reflexivity.
  by destruct (H r).
Qed.

Lemma resourceDefinition_required w :
  (∀ r, current w ≠ Some (DResource r)) →
  resourceDefinition true w = Ret (None, false) (addErrors [incompatibleDSL "Resource"] w).
Proof.
  intros H. unfold resourceDefinition, bind, gets.
  destruct (current w) as [[]|] eqn:E; try reflexivity.
  by destruct (H r).
Qed.

Lemma responseDefinition_response b r w :
  current w = Some (DResponse r) → responseDefinition b w = Ret (r, true) w.
Proof. intros H. unfold responseDefinition, bind, gets. by rewrite H. Qed.

(** ** Params outside a resource or an action *)

(** C9: when the innermost context is neither an action nor a resource (in
    particular when no context is active at all), [Params] returns normally,
    reports exactly one error, the context error asking for a resource block,
    does not run the callback, and creates and assigns nothing: the arenas of
    attributes, actions and resources, the design and the context stack are
    those of before the call. *)
Theorem Params_outside_context (dsl : DSL) (w : World) :
  (∀ a, current w ≠ Some (DAction a)) →
  (∀ r, current w ≠ Some (DResource r)) →
  ∃ w', Params dsl w = Ret tt w' ∧
        Errors w' = Errors w ++ [incompatibleDSL "Resource"] ∧
        attributes w' = attributes w ∧
        actions w' = actions w ∧
        resources w' = resources w ∧
        responses w' = responses w ∧
        Design w' = Design w ∧
        ctxStack w' = ctxStack w.
Proof.
  intros Ha Hr.
  exists (addErrors [incompatibleDSL "Resource"] w).
  split; [|by repeat split].
  unfold Params, bind.
  rewrite (actionDefinition_silent w Ha).
  by rewrite (resourceDefinition_required w Hr).
Qed.

(** [Params] with no block open. *)
Lemma Params_outside_context_witness :
  ∃ w', Params (ret tt) noContext = Ret tt w' ∧
        Errors w' = [] ++ [incompatibleDSL "Resource"] ∧
        attributes w' = [] ∧ actions w' = [] ∧ resources w' = [] ∧ responses w' = [] ∧
        Design w' = mkAPI ∅ ∅ ∧ ctxStack w' = [].
Proof.
  apply (Params_outside_context (ret tt) noContext); intros p; simpl; discriminate.
Defined.

(** ** Headers on a response that has headers *)

(** C8: in a response context whose response already carries headers,
    [Headers] returns normally, reports the error "headers already defined",
    does not run the callback, and leaves the response (so its [Headers]
    pointer) and the arena of attributes (so the contents of the attribute
    it points to) as they were. *)
Theorem Headers_already_defined (dsl : DSL) (w : World) (r h : nat) (rsp : ResponseDefinition) :
  current w = Some (DResponse (Some r)) →
  responses w !! r = Some rsp →
  Response_Headers rsp = Some h →
  ∃ w', Headers dsl w = Ret tt w' ∧
        Errors w' = Errors w ++ [headersAlreadyDefined] ∧
        responses w' !! r = Some rsp ∧
        responses w' = responses w ∧
        attributes w' = attributes w ∧
        actions w' = actions w ∧
        resources w' = resources w ∧
        ctxStack w' = ctxStack w.
Proof.
  intros Hc Hr Hh.
  exists (addErrors [headersAlreadyDefined] w).
  split; [|by repeat split].
  unfold Headers, bind.
  rewrite actionDefinition_silent by (intros a; rewrite Hc; discriminate).
  rewrite resourceDefinition_silent by (intros a; rewrite Hc; discriminate).
  rewrite (responseDefinition_response true (Some r) w Hc).
  unfold deref. rewrite Hr, Hh.
  by rewrite bool_decide_eq_true_2.
Qed.

(** [Headers] a second time on the response of the example: the first call
    has assigned the attribute 0. *)
Lemma Headers_already_defined_witness :
  responses headersSet !! 0 = Some (mkResponse (Some (DAction (Some 0))) (Some 0)) ∧
  ∃ w', Headers (ret tt) headersSet = Ret tt w' ∧
        Errors w' = Errors headersSet ++ [headersAlreadyDefined] ∧
        responses w' !! 0 = Some (mkResponse (Some (DAction (Some 0))) (Some 0)) ∧
        responses w' = responses headersSet ∧
        attributes w' = attributes headersSet ∧
        actions w' = actions headersSet ∧
        resources w' = resources headersSet ∧
        ctxStack w' = ctxStack headersSet.
Proof.
  split; [reflexivity|].
  apply (Headers_already_defined (ret tt) headersSet 0 0
           (mkResponse (Some (DAction (Some 0))) (Some 0))); reflexivity.
Defined.

(** ** Payload *)

Section PayloadFacts.

Variable camelize : string → string.

(** The assignment at the end of [Payload], on an action with a parent. *)
Lemma assignPayload_ok (a r : nat) (att : ptr) (w : World) act res :
  actions w !! a = Some act →
  Action_Parent act = Some r →
  resources w !! r = Some res →
  assignPayload camelize (Some a) att w =
    Ret tt (set_actions
              (λ h, <[a := set_Action_Payload (Some (length (usertypes w))) act]> h)
              (set_usertypes
                 (λ h, h ++ [mkUserType att
                   (camelize (Action_Name act) +:+ camelize (Resource_Name res) +:+ "Payload")])
                 w)).
Proof.
  intros Ha Hp Hr.
  unfold assignPayload, bind, deref, update, alloc, modify, bind, deref; simpl.
  by repeat (rewrite ?Ha, ?Hp, ?Hr; simpl).
Qed.

(** It returns only on such an action. *)
Lemma assignPayload_inv (a att : ptr) (w w' : World) :
  assignPayload camelize a att w = Ret tt w' →
  ∃ l act r res,
    a = Some l ∧ actions w !! l = Some act ∧ Action_Parent act = Some r ∧
    resources w !! r = Some res.
Proof.
  unfold assignPayload, bind, deref.
  destruct a as [l|]; [|discriminate].
  destruct (actions w !! l) as [act|] eqn:Ha; [|discriminate].
  destruct (Action_Parent act) as [r|] eqn:Hp; [|discriminate].
  destruct (resources w !! r) as [res|] eqn:Hr; [|discriminate].
  intros _. by exists l, act, r, res.
Qed.

(** What the assignment leaves: the payload of the action is a user type
    over [att] named after the action and its resource. *)
Lemma assignPayload_named (a att : ptr) (w w' : World) :
  assignPayload camelize a att w = Ret tt w' →
  ∃ an rn,
    actionName w' a = Some an ∧ resourceName w' a = Some rn ∧
    payloadOf w' a = Some (mkUserType att (camelize an +:+ camelize rn +:+ "Payload")) ∧
    Errors w' = Errors w.
Proof.
  intros H. destruct (assignPayload_inv _ _ _ _ H) as (l & act & r & res & -> & Ha & Hp & Hr).
  rewrite (assignPayload_ok _ _ _ _ _ _ Ha Hp Hr) in H.
  injection H as <-.
  exists (Action_Name act), (Resource_Name res).
  pose proof (lookup_lt_Some _ _ _ Ha) as Hlt.
  unfold actionName, resourceName, payloadOf, parentOf, actionOf; simpl.
  rewrite list_lookup_insert_eq by done. simpl.
  rewrite Hp. simpl. rewrite Hr. simpl.
  repeat split.
  by rewrite lookup_app_r, Nat.sub_diag by lia.
Qed.

(** Every normal return of [Payload] from an action context, with at most
    one override, goes through the assignment. *)
Lemma Payload_assigns (p : PayloadArg) (dsls : list (option DSL)) (w w' : World) (a : ptr) :
  current w = Some (DAction a) →
  (length dsls ≤ 1)%nat →
  Payload camelize p dsls w = Ret tt w' →
  ∃ att w2, assignPayload camelize a att w2 = Ret tt w'.
Proof.
  intros Hc Hlen. unfold Payload.
  destruct (Nat.ltb_spec 1 (length dsls)) as [|_]; [lia|].
  unfold bind at 1. rewrite (actionDefinition_action true a w Hc).
  unfold bind at 1.
  destruct (payloadSource a p w) as [[att dsl] w1|]; [|discriminate].
  unfold bind at 1.
  destruct dsls as [|d [|]]; simpl in Hlen; [| |lia].
  - unfold ret at 1. unfold bind at 1.
    destruct dsl as [f|].
    + unfold bind at 1. destruct (executeDSL f (DAttribute att) w1); [|discriminate].
      unfold ret at 1. eauto.
    + unfold ret at 1. eauto.
  - unfold bind at 1.
    destruct (when _ _ w1) as [[] w1'|]; [|discriminate].
    unfold ret at 1. unfold bind at 1.
    destruct d as [f|].
    + unfold bind at 1. destruct (executeDSL f (DAttribute att) w1'); [|discriminate].
      unfold ret at 1. eauto.
    + unfold ret at 1. eauto.
Qed.

End PayloadFacts.

(** A source that resolves to an attribute without callback and without
    touching the world: the call is the assignment. *)
Lemma Payload_resolved (camelize : string → string) (p : PayloadArg) (w : World)
    (a att : ptr) :
  current w = Some (DAction a) →
  payloadSource a p w = Ret (att, None) w →
  Payload camelize p [] w = assignPayload camelize a att w.
Proof.
  intros Hc Hsrc. unfold Payload; simpl. unfold bind at 1.
  rewrite (actionDefinition_action true a w Hc).
  unfold bind at 1. by rewrite Hsrc.
Qed.

Lemma assignPayload_payloadOf (camelize : string → string) (a r : nat) (att : ptr)
    (w : World) act res :
  actions w !! a = Some act →
  Action_Parent act = Some r →
  resources w !! r = Some res →
  ∃ w', assignPayload camelize (Some a) att w = Ret tt w' ∧
        payloadOf w' (Some a) =
          Some (mkUserType att
                  (synthesizedName camelize (Action_Name act) (Resource_Name res))).
Proof.
  intros Ha Hp Hr. eexists. split; [by apply (assignPayload_ok camelize a r att w act res)|].
  unfold payloadOf, actionOf; simpl.
  rewrite list_lookup_insert_eq by (by apply lookup_lt_Some in Ha). simpl.
  by rewrite lookup_app_r, Nat.sub_diag by lia.
Qed.

(** C5: [Payload] in an action [a] whose parent resource exists.  For a
    prebuilt attribute and for the name of a registered type the call returns
    normally and the payload of the action is a user type, over the attribute
    of the source, named by the camelized action name, then the camelized
    resource name, then "Payload".  For every source and at most one override
    callback, whenever the call returns normally the payload of the action
    has the name synthesized from the names of the action and of its
    resource.  In particular, with a [camelize] that leaves "Update" and
    "Account" as they are, the action "Update" of the resource "Account" gets
    "UpdateAccountPayload" whatever the source.  And any other such call on
    an action and a resource of the same names gives the same type name. *)
Theorem Payload_type_name (camelize : string → string) (w : World) (a r : nat)
    (act : ActionDefinition) (res : ResourceDefinition) :
  current w = Some (DAction (Some a)) →
  actions w !! a = Some act →
  Action_Parent act = Some r →
  resources w !! r = Some res →
  (∀ att, ∃ w',
     Payload camelize (PAttribute att) [] w = Ret tt w' ∧
     payloadOf w' (Some a) =
       Some (mkUserType att (synthesizedName camelize (Action_Name act) (Resource_Name res)))) ∧
  (∀ s u ut,
     Types (Design w) !! s = Some (Some u) → usertypes w !! u = Some ut →
     ∃ w', Payload camelize (PString s) [] w = Ret tt w' ∧
           payloadOf w' (Some a) =
             Some (mkUserType (UserType_AttributeDefinition ut)
                     (synthesizedName camelize (Action_Name act) (Resource_Name res)))) ∧
  (∀ p dsls w',
     (length dsls ≤ 1)%nat →
     Payload camelize p dsls w = Ret tt w' →
     ∃ an rn,
       actionName w' (Some a) = Some an ∧ resourceName w' (Some a) = Some rn ∧
       payloadTypeName w' (Some a) = Some (synthesizedName camelize an rn)) ∧
  (∀ p dsls w',
     (length dsls ≤ 1)%nat →
     Payload camelize p dsls w = Ret tt w' →
     camelize "Update" = "Update" → camelize "Account" = "Account" →
     actionName w' (Some a) = Some "Update" → resourceName w' (Some a) = Some "Account" →
     payloadTypeName w' (Some a) = Some "UpdateAccountPayload") ∧
  (∀ p dsls w' p2 dsls2 w2 w2' a2,
     (length dsls ≤ 1)%nat →
     Payload camelize p dsls w = Ret tt w' →
     current w2 = Some (DAction a2) →
     (length dsls2 ≤ 1)%nat →
     Payload camelize p2 dsls2 w2 = Ret tt w2' →
     actionName w2' a2 = actionName w' (Some a) →
     resourceName w2' a2 = resourceName w' (Some a) →
     payloadTypeName w2' a2 = payloadTypeName w' (Some a)).
Proof.
  intros Hc Ha Hpar Hr.
  assert (Hnamed : ∀ p dsls w w' a,
            current w = Some (DAction a) → (length dsls ≤ 1)%nat →
            Payload camelize p dsls w = Ret tt w' →
            ∃ an rn, actionName w' a = Some an ∧ resourceName w' a = Some rn ∧
              payloadTypeName w' a = Some (synthesizedName camelize an rn)).
  { clear. intros p dsls w w' a Hc Hlen Hret.
    destruct (Payload_assigns camelize p dsls w w' a Hc Hlen Hret) as (att & w2 & Hassign).
    destruct (assignPayload_named camelize a att w2 w' Hassign) as (an & rn & Han & Hrn & Hp & _).
    exists an, rn. unfold payloadTypeName. by rewrite Hp. }
  split; [|split; [|split; [|split]]].
  - intros att. rewrite (Payload_resolved camelize (PAttribute att) w (Some a) att Hc eq_refl).
    by apply (assignPayload_payloadOf camelize a r att w act res).
  - intros s u ut Hs Hu.
    rewrite (Payload_resolved camelize (PString s) w (Some a) (UserType_AttributeDefinition ut) Hc).
    + by apply (assignPayload_payloadOf camelize a r _ w act res).
    + unfold payloadSource, bind, gets, deref. rewrite Hs. simpl.
      by rewrite Hu.
  - intros p dsls w' Hlen Hret. by apply (Hnamed p dsls w).
  - intros p dsls w' Hlen Hret Hu Hacc Ha' Hr'.
    destruct (Hnamed p dsls w w' (Some a) Hc Hlen Hret) as (an & rn & Han & Hrn & Hty).
    rewrite Han in Ha'. rewrite Hrn in Hr'. injection Ha' as ->. injection Hr' as ->.
    rewrite Hty. unfold synthesizedName. rewrite Hu, Hacc. reflexivity.
  - intros p dsls w' p2 dsls2 w2 w2' a2 Hlen Hret Hc2 Hlen2 Hret2 Hsame_a Hsame_r.
    destruct (Hnamed p dsls w w' (Some a) Hc Hlen Hret) as (an & rn & Han & Hrn & Hty).
    destruct (Hnamed p2 dsls2 w2 w2' a2 Hc2 Hlen2 Hret2) as (an2 & rn2 & Han2 & Hrn2 & Hty2).
    rewrite Han, Han2 in Hsame_a. rewrite Hrn, Hrn2 in Hsame_r.
    injection Hsame_a as ->. injection Hsame_r as ->.
    by rewrite Hty, Hty2.
Qed.

(** The registered type "AccountPayload" as the source, in the action
    "Update" of the resource "Account": the call returns and the payload is
    named "UpdateAccountPayload". *)
Lemma Payload_type_name_witness :
  ∃ w', Payload exampleCamelize (PString "AccountPayload") [] updateAccountTyped = Ret tt w' ∧
        payloadOf w' (Some 0) = Some (mkUserType (Some 0) "UpdateAccountPayload").
Proof.
  apply (proj1 (proj2 (Payload_type_name exampleCamelize updateAccountTyped 0 0
                         updateAction accountResource eq_refl eq_refl eq_refl eq_refl))
           "AccountPayload" 0 (mkUserType (Some 0) "AccountPayload"));
    reflexivity.
Defined.

(** C10: a source that matches no case of the type switch (an integer, a
    boolean, nil).  Called without override in an action whose parent
    exists, [Payload] returns normally, reports no error, and assigns to the
    action a payload with the synthesized name whose attribute is nil.  With
    an override the attribute is nil all the same: the call is the run of the
    override against the nil attribute followed by the assignment, and
    [Payload] itself reports nothing. *)
Theorem Payload_unsupported_source (camelize : string → string) (p : PayloadArg)
    (w : World) (a r : nat) (act : ActionDefinition) (res : ResourceDefinition) :
  unsupportedShape p = true →
  current w = Some (DAction (Some a)) →
  actions w !! a = Some act →
  Action_Parent act = Some r →
  resources w !! r = Some res →
  (∃ w', Payload camelize p [] w = Ret tt w' ∧
         Errors w' = Errors w ∧
         payloadOf w' (Some a) =
           Some (mkUserType None
                   (synthesizedName camelize (Action_Name act) (Resource_Name res)))) ∧
  (∀ d, Payload camelize p [d] w =
        (match d with
         | Some f => executeDSL f (DAttribute None) ;; ret tt
         | None => ret tt
         end ;; assignPayload camelize (Some a) None) w).
Proof.
  intros Hp Hc Ha Hpar Hr. split.
  - destruct (assignPayload_named camelize (Some a) None w _
                (assignPayload_ok camelize a r None w act res Ha Hpar Hr))
      as (an & rn & Han & Hrn & Hpay & Herr).
    eexists. split; [|split; [exact Herr|]].
    + unfold Payload; simpl. unfold bind at 1.
      rewrite (actionDefinition_action true (Some a) w Hc).
      destruct p; try discriminate; apply (assignPayload_ok camelize a r None w act res Ha Hpar Hr).
    + rewrite Hpay. unfold actionName, resourceName, parentOf, actionOf in Han, Hrn.
      simpl in Han, Hrn.
      rewrite list_lookup_insert_eq in Han, Hrn by (by apply lookup_lt_Some in Ha).
      simpl in Han, Hrn. rewrite Hpar in Hrn. simpl in Hrn. rewrite Hr in Hrn.
      simpl in Hrn. by injection Han as <-; injection Hrn as <-.
  - intros d. unfold Payload; simpl. unfold bind at 1.
    rewrite (actionDefinition_action true (Some a) w Hc).
    by destruct p; try discriminate; destruct d.
Qed.

(** [Payload(42)] in the action "Update" of the resource "Account". *)
Lemma Payload_unsupported_source_witness :
  ∃ w', Payload exampleCamelize (PInt 42) [] updateAccount = Ret tt w' ∧
        Errors w' = [] ∧
        payloadOf w' (Some 0) = Some (mkUserType None "UpdateAccountPayload").
Proof.
  exact (proj1 (Payload_unsupported_source exampleCamelize (PInt 42) updateAccount 0 0
                  updateAction accountResource eq_refl eq_refl eq_refl eq_refl eq_refl)).
Defined.

(** C2: a name that is not in [Design.Types], in an action context.
    [Payload] reports "unknown payload type" and does not return: the entry
    it goes on to read is the nil pointer of the missed lookup, and the call
    panics.  The world at the panic is the one of the call plus the error, so
    the action's payload has not been touched. *)
Theorem Payload_unknown_type (camelize : string → string) (s : string)
    (dsls : list (option DSL)) (w : World) (a : ptr) :
  current w = Some (DAction a) →
  (length dsls ≤ 1)%nat →
  Types (Design w) !! s = None →
  Payload camelize (PString s) dsls w = Panic (addErrors [unknownPayloadType s] w).
Proof.
  intros Hc Hlen Hs. unfold Payload.
  destruct (Nat.ltb_spec 1 (length dsls)) as [|_]; [lia|].
  unfold bind at 1. rewrite (actionDefinition_action true a w Hc).
  unfold bind at 1. unfold payloadSource, bind, gets. by rewrite Hs.
Qed.

(** [Payload("Nonexistent")] in the action "Update" of the resource
    "Account", with no type registered. *)
Lemma Payload_unknown_type_witness :
  Payload exampleCamelize (PString "Nonexistent") [] updateAccount =
  Panic (addErrors ["unknown payload type Nonexistent"] updateAccount).
Proof.
  apply (Payload_unknown_type exampleCamelize "Nonexistent" [] updateAccount (Some 0));
    [reflexivity | simpl; lia | reflexivity].
Defined.

(** C1: a callback as the source together with an override callback, in the
    action "Update" of the resource "Account".  [Payload] reports the
    "invalid arguments" error and carries on: it returns normally and the
    action, which had no payload, has one, built on the attribute created for
    the source callback. *)
Theorem Payload_callback_and_override (camelize : string → string) :
  payloadPtr updateAccount (Some 0) = Some None ∧
  ∃ w', Payload camelize (PFunc (Some (ret tt))) [Some (ret tt)] updateAccount = Ret tt w' ∧
        Errors w' = [invalidArguments] ∧
        payloadPtr w' (Some 0) = Some (Some 0) ∧
        payloadOf w' (Some 0) =
          Some (mkUserType (Some 0) (camelize "Update" +:+ camelize "Account" +:+ "Payload")) ∧
        attributes w' = [mkAttribute (Some (Object ∅)) None].
Proof.
  split; [reflexivity|].
  eexists. split; [vm_compute; reflexivity|]. by repeat split.
Qed.

(** Modelled from the spec: with the executor of section 4.2, a callback that
    reports an error is a failed execution. *)
Lemma executeDSL_reporting_fails (msg : string) (ctx : DSLDefinition) (w : World) :
  executeDSL (ReportError msg) ctx w = Ret false (addErrors [msg] w).
Proof.
  unfold executeDSL, bind, gets, modify, ReportError, ret; simpl.
  rewrite length_app; simpl.
  replace (Nat.leb _ _) with false by (symmetry; apply Nat.leb_gt; lia).
  by destruct w as [? ? ? ? ? ? ? []].
Qed.

(** C3: a callback whose execution fails, as the source and as the override
    of a registered type, for the action "Update" of the resource "Account".
    In both calls the result of the execution is dropped: the call returns
    normally with the callback's error in the list and with a payload
    assigned to the action, which had none. *)
Theorem Payload_failed_callback_assigns (camelize : string → string) :
  payloadPtr updateAccount (Some 0) = Some None ∧
  (∃ w', Payload camelize (PFunc (Some (ReportError "boom"))) [] updateAccount = Ret tt w' ∧
         Errors w' = ["boom"] ∧
         payloadOf w' (Some 0) =
           Some (mkUserType (Some 0) (camelize "Update" +:+ camelize "Account" +:+ "Payload"))) ∧
  payloadPtr updateAccountTyped (Some 0) = Some None ∧
  (∃ w', Payload camelize (PString "AccountPayload") [Some (ReportError "boom")]
           updateAccountTyped = Ret tt w' ∧
         Errors w' = ["boom"] ∧
         payloadPtr w' (Some 0) = Some (Some 1) ∧
         payloadOf w' (Some 0) =
           Some (mkUserType (Some 0) (camelize "Update" +:+ camelize "Account" +:+ "Payload"))).
Proof.
  split; [reflexivity|].
  split; [eexists; split; [vm_compute; reflexivity|]; by repeat split|].
  split; [reflexivity|].
  eexists; split; [vm_compute; reflexivity|]; by repeat split.
Qed.

(** ** Routing *)

Lemma set_Action_Routes_twice rs1 rs2 act :
  set_Action_Routes rs2 (set_Action_Routes rs1 act) = set_Action_Routes rs2 act.
Proof. reflexivity. Qed.

Lemma set_Action_Routes_same act : set_Action_Routes (Action_Routes act) act = act.
Proof. by destruct act. Qed.

Lemma append_assoc (s1 s2 s3 : string) : (s1 +:+ s2) +:+ s3 = s1 +:+ (s2 +:+ s3).
Proof.
  induction s1 as [|c s1 IH]; [done|].
  change (String c ((s1 +:+ s2) +:+ s3) = String c (s1 +:+ s2 +:+ s3)).
  by f_equal.
Qed.

(** The duplicate wildcard message mentions its three arguments. *)
Lemma duplicateWildcard_mentions (wc P Q : string) :
  mentions (duplicateWildcard wc P Q) wc ∧
  mentions (duplicateWildcard wc P Q) P ∧
  mentions (duplicateWildcard wc P Q) Q.
Proof.
  unfold mentions, duplicateWildcard. repeat split.
  - eexists ("duplicate wildcard " +:+ dquote), _. rewrite !append_assoc. reflexivity.
  - eexists ("duplicate wildcard " +:+ dquote +:+ wc +:+ dquote +:+
             " in resource base path " +:+ dquote), _.
    rewrite !append_assoc. reflexivity.
  - eexists ("duplicate wildcard " +:+ dquote +:+ wc +:+ dquote +:+
             " in resource base path " +:+ dquote +:+ P +:+ dquote +:+
             " and action route " +:+ dquote), dquote.
    rewrite !append_assoc. reflexivity.
Qed.

Section RoutingFacts.

Variable ExtractWildcards : string → list string.
Variable FullPath : APIDefinition → list ResourceDefinition → ResourceDefinition → string.

Lemma parentFullPath_ok w a act P :
  actionAt FullPath w a act P → parentFullPath FullPath (Some a) w = Ret P w.
Proof.
  intros (Ha & r & res & Hp & Hr & HP).
  unfold parentFullPath, bind, deref, gets. by rewrite Ha, Hp, Hr, HP.
Qed.

Lemma reportDuplicates_inner w a act P l rt rwc wcs :
  actionAt FullPath w a act P →
  routes w !! l = Some rt →
  forM_ wcs (λ wc,
      if String.eqb rwc wc then
        fp <- parentFullPath FullPath (Some a) ;;
        rt <- deref routes (Some l) ;;
        ReportError (duplicateWildcard wc fp (Path rt))
      else ret tt) w =
  Ret tt (addErrors
            (flat_map (λ wc, if String.eqb rwc wc
                             then [duplicateWildcard wc P (Path rt)] else []) wcs) w).
Proof.
  intros Ha Hl. revert w Ha Hl.
  induction wcs as [|wc wcs IH]; intros w Ha Hl; simpl.
  - by rewrite addErrors_nil.
  - unfold bind at 1. destruct (String.eqb rwc wc).
    + unfold bind at 1. rewrite (parentFullPath_ok w a act P Ha).
      unfold bind at 1, deref at 1. rewrite Hl.
      rewrite ReportError_eq, IH by done. by rewrite addErrors_app.
    + unfold ret at 1. by rewrite IH.
Qed.

Lemma reportDuplicates_ok w a act P l rt rwcs :
  actionAt FullPath w a act P →
  routes w !! l = Some rt →
  reportDuplicates FullPath (Some a) (Some l) rwcs (ExtractWildcards (Path rt)) w =
  Ret tt (addErrors
            (flat_map (λ rwc,
               flat_map (λ wc, if String.eqb rwc wc
                               then [duplicateWildcard wc P (Path rt)] else [])
                        (ExtractWildcards (Path rt))) rwcs) w).
Proof.
  intros Ha Hl. revert w Ha Hl. unfold reportDuplicates.
  induction rwcs as [|rwc rwcs IH]; intros w Ha Hl; simpl.
  - by rewrite addErrors_nil.
  - unfold bind at 1.
    rewrite (reportDuplicates_inner w a act P l rt rwc _ Ha Hl).
    rewrite IH by done. by rewrite addErrors_app.
Qed.

(** One route: the duplicates are reported, the route gets its parent and
    is appended to the routes of the action. *)
Lemma attachRoute_ok w a act P l rt :
  actionAt FullPath w a act P →
  routes w !! l = Some rt →
  attachRoute ExtractWildcards FullPath (Some a) (Some l) w =
  Ret tt (set_actions
            (λ h, <[a := set_Action_Routes (Action_Routes act ++ [Some l]) act]> h)
            (set_routes (λ h, <[l := set_Route_Parent (Some a) rt]> h)
               (addErrors (duplicateErrors ExtractWildcards P (Path rt)) w))).
Proof.
  intros Ha Hl. unfold attachRoute.
  unfold bind at 1. rewrite (parentFullPath_ok w a act P Ha).
  unfold bind at 1, deref at 1. rewrite Hl.
  unfold bind at 1. rewrite (reportDuplicates_ok w a act P l rt _ Ha Hl).
  destruct Ha as (Ha & _).
  unfold update, bind, deref, modify; wsimpl.
  by repeat (rewrite ?Hl, ?Ha; simpl).
Qed.

Lemma pathOf_attach w w1 l a rt p :
  routes w !! l = Some rt →
  routes w1 = <[l := set_Route_Parent (Some a) rt]> (routes w) →
  pathOf w1 p = pathOf w p.
Proof.
  intros Hl Hw1. unfold pathOf. rewrite Hw1. destruct p as [l'|]; [|done]. simpl.
  destruct (decide (l = l')) as [<-|Hne].
  - rewrite list_lookup_insert_eq by (by apply lookup_lt_Some in Hl). by rewrite Hl.
  - by rewrite list_lookup_insert_ne.
Qed.

(** The loop over the routes. *)
Lemma Routing_loop rts : ∀ w a act P,
  actionAt FullPath w a act P →
  Forall (validRoute w) rts →
  ∃ w', forM_ rts (attachRoute ExtractWildcards FullPath (Some a)) w = Ret tt w' ∧
        attached ExtractWildcards P a act rts w w'.
Proof.
  induction rts as [|p rts IH]; intros w a act P Ha Hv.
  - exists w. split; [done|]. destruct Ha as (Ha & _).
    unfold attached. rewrite !app_nil_r, set_Action_Routes_same, list_insert_id by done.
    by repeat split.
  - apply Forall_cons in Hv as [(l & rt & -> & Hl) Hv].
    simpl. unfold bind at 1.
    rewrite (attachRoute_ok w a act P l rt Ha Hl).
    set (act1 := set_Action_Routes (Action_Routes act ++ [Some l]) act).
    set (w1 := set_actions _ _).
    assert (Ha1 : actionAt FullPath w1 a act1 P).
    { destruct Ha as (Ha & r & res & Hp & Hr & HP). split.
      - subst w1; simpl. by rewrite list_lookup_insert_eq by (by apply lookup_lt_Some in Ha).
      - by exists r, res. }
    assert (Hv1 : Forall (validRoute w1) rts).
    { eapply Forall_impl; [exact Hv|]. intros p (l' & rt' & -> & Hl').
      subst w1; unfold validRoute; simpl.
      destruct (decide (l = l')) as [<-|Hne].
      - eexists _, _. split; [done|].
        by rewrite list_lookup_insert_eq by (by apply lookup_lt_Some in Hl).
      - eexists _, _. split; [done|]. by rewrite list_lookup_insert_ne. }
    destruct (IH w1 a act1 P Ha1 Hv1) as (w' & Hrun & Hpost).
    exists w'. split; [exact Hrun|].
    destruct Hpost as (HD & Hres & Hrsp & Hatt & Hut & Hctx & Hact & Herr & Hrts).
    unfold attached. repeat split; try done.
    + rewrite Hact. subst w1 act1; simpl.
      rewrite list_insert_insert_eq. by rewrite <- app_assoc.
    + rewrite Herr. subst w1; simpl. rewrite <- app_assoc. f_equal.
      unfold pathOf at 2; simpl. rewrite Hl; simpl. f_equal.
      apply flat_map_ext. intros p. f_equal.
      by apply (pathOf_attach w _ l a rt p Hl).
    + intros l' rt' Hl'. subst w1; simpl in Hrts.
      destruct (decide (l = l')) as [<-|Hne].
      * rewrite Hl in Hl'. injection Hl' as <-.
        rewrite (Hrts l (set_Route_Parent (Some a) rt))
          by (by rewrite list_lookup_insert_eq by (by apply lookup_lt_Some in Hl)).
        rewrite (bool_decide_eq_true_2 (Some l ∈ Some l :: rts)) by apply list_elem_of_here.
        by destruct (bool_decide _).
      * rewrite (Hrts l' rt') by (by rewrite list_lookup_insert_ne).
        f_equal. rewrite (bool_decide_ext (Some l' ∈ rts) (Some l' ∈ Some l :: rts)); [done|].
        rewrite elem_of_cons. split; [by right|]. intros [[=]|]; [congruence|done].
Qed.

Lemma duplicateErrors_elem (P Q W : string) :
  W ∈ ExtractWildcards P → W ∈ ExtractWildcards Q →
  duplicateWildcard W P Q ∈ duplicateErrors ExtractWildcards P Q.
Proof.
  intros HP HQ. apply list_elem_of_In. unfold duplicateErrors.
  apply in_flat_map. exists W. split; [by apply list_elem_of_In|].
  apply in_flat_map. exists W. split; [by apply list_elem_of_In|].
  rewrite String.eqb_refl. by left.
Qed.

Lemma duplicateErrors_disjoint (P Q : string) :
  (∀ W, W ∈ ExtractWildcards P → W ∉ ExtractWildcards Q) →
  duplicateErrors ExtractWildcards P Q = [].
Proof.
  intros Hdis. destruct (duplicateErrors ExtractWildcards P Q) as [|msg ?] eqn:E; [done|].
  assert (Hin : In msg (duplicateErrors ExtractWildcards P Q)) by (rewrite E; by left).
  unfold duplicateErrors in Hin.
  apply in_flat_map in Hin as (rwc & Hrwc & Hin).
  apply in_flat_map in Hin as (wc & Hwc & Hin).
  destruct (String.eqb rwc wc) eqn:Heq; [|by destruct Hin].
  apply String.eqb_eq in Heq as ->.
  destruct (Hdis wc); by apply list_elem_of_In.
Qed.

End RoutingFacts.

Lemma flat_map_empty {A B} (f : A → list B) (l : list A) :
  (∀ x, x ∈ l → f x = []) → flat_map f l = [].
Proof.
  induction l as [|x l IH]; intros H; simpl; [done|].
  rewrite (H x) by apply list_elem_of_here.
  apply IH. intros y Hy. apply H. by apply list_elem_of_further.
Qed.

(** C6: [Routing] in an action whose parent resource has full path [P], on
    routes that exist.  The call returns normally and the errors it adds are,
    route after route, the duplicate wildcard errors of [P] and the route's
    path [Q].  For every route and every name [W] among the wildcards of both
    [P] and [Q], one of the added errors is the duplicate wildcard error of
    [W], [P] and [Q], and its text mentions the three.  A route whose
    wildcards are disjoint from those of [P] adds no error, and when that is
    so for all the routes the error list is the one of before the call. *)
Theorem Routing_duplicate_wildcards
    (ExtractWildcards : string → list string)
    (FullPath : APIDefinition → list ResourceDefinition → ResourceDefinition → string)
    (rts : list ptr) (w : World) (a : nat) (act : ActionDefinition) (P : string) :
  current w = Some (DAction (Some a)) →
  actionAt FullPath w a act P →
  Forall (validRoute w) rts →
  ∃ w' new,
    Routing ExtractWildcards FullPath rts w = Ret tt w' ∧
    Errors w' = Errors w ++ new ∧
    new = flat_map (λ p, duplicateErrors ExtractWildcards P (pathOf w p)) rts ∧
    (∀ p W, p ∈ rts → W ∈ ExtractWildcards P → W ∈ ExtractWildcards (pathOf w p) →
       ∃ msg, msg ∈ new ∧ msg = duplicateWildcard W P (pathOf w p) ∧
              mentions msg W ∧ mentions msg P ∧ mentions msg (pathOf w p)) ∧
    (∀ p, (∀ W, W ∈ ExtractWildcards P → W ∉ ExtractWildcards (pathOf w p)) →
          duplicateErrors ExtractWildcards P (pathOf w p) = []) ∧
    ((∀ p W, p ∈ rts → W ∈ ExtractWildcards P → W ∉ ExtractWildcards (pathOf w p)) →
     Errors w' = Errors w).
Proof.
  intros Hc Ha Hv.
  destruct (Routing_loop ExtractWildcards FullPath rts w a act P Ha Hv) as (w' & Hrun & Hpost).
  destruct Hpost as (_ & _ & _ & _ & _ & _ & _ & Herr & _).
  exists w', (flat_map (λ p, duplicateErrors ExtractWildcards P (pathOf w p)) rts).
  split; [|split; [exact Herr|split; [done|split; [|split]]]].
  - unfold Routing, bind. by rewrite (actionDefinition_action true (Some a) w Hc).
  - intros p W Hp HWP HWQ. exists (duplicateWildcard W P (pathOf w p)).
    split; [|split; [done|apply duplicateWildcard_mentions]].
    apply list_elem_of_In, in_flat_map. exists p. split; [by apply list_elem_of_In|].
    by apply list_elem_of_In, duplicateErrors_elem.
  - intros p. apply duplicateErrors_disjoint.
  - intros Hdis. rewrite Herr, flat_map_empty, app_nil_r; [done|].
    intros p Hp. apply duplicateErrors_disjoint. intros W. by apply Hdis.
Qed.

(** The three routes of the example: the second one shares "accountID" with
    the resource path "/accounts/:accountID" and is the only one reported. *)
Lemma Routing_duplicate_wildcards_witness :
  ∃ w' new,
    Routing exampleExtractWildcards exampleFullPath [Some 0; Some 1; Some 2]
            updateAccountRoutes = Ret tt w' ∧
    Errors w' = [] ++ new ∧
    new = [duplicateWildcard "accountID" "/accounts/:accountID" "/:accountID/rename"].
Proof.
  destruct (Routing_duplicate_wildcards exampleExtractWildcards exampleFullPath
              [Some 0; Some 1; Some 2] updateAccountRoutes 0 updateAction
              "/accounts/:accountID") as (w' & new & Hrun & Herr & Hnew & _).
  - reflexivity.
  - split; [reflexivity|]. by exists 0, accountResource.
  - repeat constructor; unfold validRoute; simpl; eauto.
  - by exists w', new.
Defined.

(** C7: [Routing] in an action whose parent resource exists, on routes that
    exist, whatever their wildcards.  The call returns normally; the routes
    of the action are those of before followed by the routes of the call in
    the order of the call; and every route of the call keeps its verb and
    path and has the action as its parent. *)
Theorem Routing_attaches_in_order
    (ExtractWildcards : string → list string)
    (FullPath : APIDefinition → list ResourceDefinition → ResourceDefinition → string)
    (rts : list ptr) (w : World) (a : nat) (act : ActionDefinition) (P : string) :
  current w = Some (DAction (Some a)) →
  actionAt FullPath w a act P →
  Forall (validRoute w) rts →
  ∃ w' act',
    Routing ExtractWildcards FullPath rts w = Ret tt w' ∧
    actions w' !! a = Some act' ∧
    Action_Routes act' = Action_Routes act ++ rts ∧
    ∀ p, p ∈ rts →
         ∃ l rt, p = Some l ∧ routes w !! l = Some rt ∧
                 routes w' !! l = Some (mkRoute (Verb rt) (Path rt) (Some a)).
Proof.
  intros Hc Ha Hv.
  destruct (Routing_loop ExtractWildcards FullPath rts w a act P Ha Hv) as (w' & Hrun & Hpost).
  destruct Hpost as (_ & _ & _ & _ & _ & _ & Hact & _ & Hrts).
  exists w', (set_Action_Routes (Action_Routes act ++ rts) act).
  split; [|split; [|split; [done|]]].
  - unfold Routing, bind. by rewrite (actionDefinition_action true (Some a) w Hc).
  - destruct Ha as (Ha & _). rewrite Hact.
    by rewrite list_lookup_insert_eq by (by apply lookup_lt_Some in Ha).
  - intros p Hp. rewrite Forall_forall in Hv.
    destruct (Hv p Hp) as (l & rt & -> & Hl). exists l, rt. split; [done|]. split; [done|].
    rewrite (Hrts l rt Hl). by rewrite bool_decide_eq_true_2.
Qed.

(** The three routes of the example, the reported one included, end up on
    the action in the order of the call. *)
Lemma Routing_attaches_in_order_witness :
  ∃ w' act',
    Routing exampleExtractWildcards exampleFullPath [Some 0; Some 1; Some 2]
            updateAccountRoutes = Ret tt w' ∧
    actions w' !! 0 = Some act' ∧
    Action_Routes act' = [] ++ [Some 0; Some 1; Some 2].
Proof.
  destruct (Routing_attaches_in_order exampleExtractWildcards exampleFullPath
              [Some 0; Some 1; Some 2] updateAccountRoutes 0 updateAction
              "/accounts/:accountID") as (w' & act' & Hrun & Hact & Hroutes & _).
  - reflexivity.
  - split; [reflexivity|]. by exists 0, accountResource.
  - repeat constructor; unfold validRoute; simpl; eauto.
  - by exists w', act'.
Defined.

(** ** Action *)

Lemma executeDSL_inv (dsl : DSL) (ctx : DSLDefinition) (w w' : World) (b : bool) :
  executeDSL dsl ctx w = Ret b w' →
  ∃ mid, dsl (set_ctxStack (cons ctx) w) = Ret tt mid ∧
         w' = set_ctxStack (drop 1) mid ∧
         b = Nat.leb (length (Errors mid)) (length (Errors w)).
Proof.
  unfold executeDSL, bind, gets, modify, ret.
  destruct (dsl _) as [[] mid|]; [|discriminate].
  intros [= <- <-]. by exists mid.
Qed.

(** The end of [Action], from the execution of the callback on: when it
    returns without a new error in the list, the callback has run against
    the action and the action is stored under its name. *)
Lemma Action_tail (r : nat) (name : string) (a : ptr) (dsl : DSL) (w0 w' : World) :
  (done <- executeDSL dsl (DAction a) ;;
   if negb done then ret tt else storeAction (Some r) name a) w0 = Ret tt w' →
  (length (Errors w') ≤ length (Errors w0))%nat →
  ∃ mid res m,
    dsl (set_ctxStack (cons (DAction a)) w0) = Ret tt mid ∧
    resources mid !! r = Some res ∧ Resource_Actions res = Some m ∧
    w' = set_resources (λ h, <[r := set_Resource_Actions (Some (<[name := a]> m)) res]> h)
                       (set_ctxStack (drop 1) mid).
Proof.
  unfold bind at 1.
  destruct (executeDSL dsl (DAction a) w0) as [b w1|] eqn:E; [|discriminate].
  apply executeDSL_inv in E as (mid & Hd & -> & ->).
  destruct (Nat.leb _ _) eqn:Hleb; simpl.
  - unfold storeAction, bind, deref; simpl.
    destruct (resources mid !! r) as [res|] eqn:Hr; [|discriminate].
    destruct (Resource_Actions res) as [m|] eqn:Hm; [|discriminate].
    unfold update, bind, deref, modify; simpl. rewrite Hr.
    intros [= <-] _. by exists mid, res, m.
  - intros [= <-]. simpl. apply Nat.leb_gt in Hleb. lia.
Qed.

(** A declaration that returns without a new error leaves an entry. *)
Lemma Action_declares (name : string) (dsl : DSL) (w w' : World) (r : nat) :
  current w = Some (DResource (Some r)) →
  Action name dsl w = Ret tt w' →
  (length (Errors w') ≤ length (Errors w))%nat →
  ∃ a, declared w' r name = Some a.
Proof.
  intros Hc Hrun Hlen.
  assert (∃ w0 a, Errors w0 = Errors w ∧
            (done <- executeDSL dsl (DAction a) ;;
             if negb done then ret tt else storeAction (Some r) name a) w0 = Ret tt w')
    as (w0 & a & He & Htail).
  { revert Hrun. unfold Action. unfold bind at 1.
    rewrite (resourceDefinition_resource true (Some r) w Hc).
    unfold bind at 1, deref at 1.
    destruct (resources w !! r) as [res|] eqn:Hr; [|discriminate].
    unfold bind at 1.
    destruct (Resource_Actions res) as [m|] eqn:Hm.
    - rewrite bool_decide_eq_false_2 by done. unfold when, ret at 1.
      unfold bind at 1, deref at 1. rewrite Hr, Hm. unfold bind at 1. simpl.
      destruct (m !! name) as [a|].
      + unfold ret at 1. intros H. by exists w, a.
      + unfold alloc at 1. intros H. eexists _, _. split; [|exact H]. done.
    - rewrite bool_decide_eq_true_2 by done. unfold when.
      unfold update, bind at 1, bind at 1, deref at 1, modify. rewrite Hr.
      unfold bind at 1, deref at 1. wsimpl.
      rewrite list_lookup_insert_eq by (by apply lookup_lt_Some in Hr).
      unfold bind at 1. simpl. rewrite lookup_empty. unfold alloc at 1.
      intros H. eexists _, _. split; [|exact H]. done. }
  rewrite <- He in Hlen.
  destruct (Action_tail r name a dsl w0 w' Htail Hlen) as (mid & res & m & _ & Hr & Hm & ->).
  exists a. unfold declared; simpl.
  rewrite list_lookup_insert_eq by (by apply lookup_lt_Some in Hr).
  simpl. by rewrite lookup_insert_eq.
Qed.

(** Declaring a name that has an entry: no action is created, the callback
    is executed against the action of the entry. *)
Lemma Action_declared (name : string) (dsl : DSL) (w : World) (r : nat) (a : ptr) :
  current w = Some (DResource (Some r)) →
  declared w r name = Some a →
  Action name dsl w =
    (done <- executeDSL dsl (DAction a) ;;
     if negb done then ret tt else storeAction (Some r) name a) w.
Proof.
  intros Hc Hd. unfold declared in Hd.
  destruct (resources w !! r) as [res|] eqn:Hr; [|discriminate].
  simpl in Hd. destruct (Resource_Actions res) as [m|] eqn:Hm; [|discriminate].
  simpl in Hd.
  unfold Action. unfold bind at 1.
  rewrite (resourceDefinition_resource true (Some r) w Hc).
  unfold bind at 1, deref at 1. rewrite Hr. unfold bind at 1.
  rewrite Hm, bool_decide_eq_false_2 by done. unfold when, ret at 1.
  unfold bind at 1, deref at 1. rewrite Hr, Hm. unfold bind at 1. simpl.
  by rewrite Hd.
Qed.

Lemma ensureActions_facts (r : nat) (w : World) :
  actions (ensureActions r w) = actions w ∧
  Errors (ensureActions r w) = Errors w ∧
  ctxStack (ensureActions r w) = ctxStack w ∧
  ∀ name, declared (ensureActions r w) r name = declared w r name.
Proof.
  unfold ensureActions.
  destruct (resources w !! r) as [res|] eqn:Hr; [|done].
  destruct (Resource_Actions res) eqn:Hm; [done|].
  repeat split. intros name. unfold declared; simpl.
  rewrite list_lookup_insert_eq by (by apply lookup_lt_Some in Hr).
  rewrite Hr. simpl. by rewrite Hm.
Qed.






(** * Further properties of action.go *)

(** ** Attribute blocks: Headers and Params *)

Lemma newAttribute_eq (baseMT : string) (w : World) :
  newAttribute baseMT w =
  Ret (Some (length (attributes w)))
      (set_attributes (λ h, h ++ [mkAttribute None (baseType w baseMT)]) w).
Proof.
  unfold newAttribute, bind, gets, alloc, baseType.
  by destruct (MediaTypes (Design w) !! baseMT).
Qed.

Lemma executeDSL_run (dsl : DSL) (ctx : DSLDefinition) (w mid : World) :
  dsl (set_ctxStack (cons ctx) w) = Ret tt mid →
  executeDSL dsl ctx w = Ret (succeeded w mid) (set_ctxStack (drop 1) mid).
Proof.
  intros H. unfold executeDSL, bind, gets, modify, ret. by rewrite H.
Qed.

(** The pattern shared by the branches of [Headers] and [Params]. *)
Lemma block_run {A} (dsl : DSL) (baseMT : string) (k : bool → ptr → M A) (w mid : World) :
  dsl (blockWorld baseMT w) = Ret tt mid →
  (h <- newAttribute baseMT ;; done <- executeDSL dsl (DAttribute h) ;; k done h) w =
  k (succeeded w mid) (Some (length (attributes w))) (set_ctxStack (drop 1) mid).
Proof.
  intros H. unfold bind at 1. rewrite newAttribute_eq.
  unfold bind at 1. by rewrite (executeDSL_run dsl _ _ mid H).
Qed.

Lemma parentMediaType_ok (w : World) (a r : nat) act res :
  actions w !! a = Some act → Action_Parent act = Some r → resources w !! r = Some res →
  parentMediaType (Some a) w = Ret (Resource_MediaType res) w.
Proof.
  intros Ha Hp Hr. unfold parentMediaType, bind, deref, ret. by rewrite Ha, Hp, Hr.
Qed.

Lemma update_ok {T} (heap : World → list T) (set : (list T → list T) → World → World)
    (l : nat) (f : T → T) (w : World) (v : T) :
  heap w !! l = Some v →
  update heap set (Some l) f w = Ret tt (set (λ h, <[l := f v]> h) w).
Proof. intros H. unfold update, bind, deref, modify. by rewrite H. Qed.

(** X1: [Headers] in the block of an action whose parent resource exists.
    The callback starts on a new attribute, without type and with the base
    type of the resource's media type as reference, as innermost context.
    When it returns having reported an error, [Headers] assigns nothing: the
    world is the one the callback left, its context popped.  When it returns
    without a new error, the new attribute becomes the [Headers] of the
    action, and nothing else is changed by the assignment. *)
Theorem Headers_in_action (dsl : DSL) (w mid : World) (a r : nat)
    (act : ActionDefinition) (res : ResourceDefinition) :
  current w = Some (DAction (Some a)) →
  actions w !! a = Some act →
  Action_Parent act = Some r →
  resources w !! r = Some res →
  dsl (blockWorld (Resource_MediaType res) w) = Ret tt mid →
  (succeeded w mid = false →
   Headers dsl w = Ret tt (set_ctxStack (drop 1) mid)) ∧
  (succeeded w mid = true →
   ∀ act', actions mid !! a = Some act' →
     Headers dsl w =
     Ret tt (set_actions
               (λ h, <[a := set_Action_Headers (Some (length (attributes w))) act']> h)
               (set_ctxStack (drop 1) mid))).
Proof.
  intros Hc Ha Hp Hr Hrun.
  assert (Heq : Headers dsl w =
                when (succeeded w mid)
                     (update actions set_actions (Some a)
                             (set_Action_Headers (Some (length (attributes w)))))
                     (set_ctxStack (drop 1) mid)).
  { unfold Headers. unfold bind at 1.
    rewrite (actionDefinition_action false (Some a) w Hc).
    unfold bind at 1. rewrite (parentMediaType_ok w a r act res Ha Hp Hr).
    by rewrite (block_run dsl _ _ w mid Hrun). }
  rewrite Heq. split; intros Hs; rewrite Hs; [done|].
  intros act' Ha'. by apply update_ok.
Qed.

(** In the action "Update" with a callback that declares nothing: attribute 0
    is created on the media type of "Account" and assigned. *)
Lemma Headers_in_action_witness :
  Headers (ret tt) (inContext [DAction (Some 0); DResource (Some 0)] mediaWorld) =
  Ret tt (set_actions
            (λ h, <[0 := set_Action_Headers (Some 0) updateAction]> h)
            (set_ctxStack (drop 1)
               (blockWorld "application/vnd.account"
                  (inContext [DAction (Some 0); DResource (Some 0)] mediaWorld)))).
Proof.
  apply (proj2 (Headers_in_action (ret tt)
                  (inContext [DAction (Some 0); DResource (Some 0)] mediaWorld)
                  (blockWorld "application/vnd.account"
                     (inContext [DAction (Some 0); DResource (Some 0)] mediaWorld))
                  0 0 updateAction mediaAccount
                  eq_refl eq_refl eq_refl eq_refl eq_refl) eq_refl updateAction eq_refl).
Defined.

(** X2: [Headers] in the block of a resource (no action block inside). The
    callback starts on a new attribute based on the resource's media type;
    the attribute becomes the [Headers] of the resource exactly when the
    callback returns without a new error. *)
Theorem Headers_in_resource (dsl : DSL) (w mid : World) (r : nat) (res : ResourceDefinition) :
  current w = Some (DResource (Some r)) →
  resources w !! r = Some res →
  dsl (blockWorld (Resource_MediaType res) w) = Ret tt mid →
  (succeeded w mid = false →
   Headers dsl w = Ret tt (set_ctxStack (drop 1) mid)) ∧
  (succeeded w mid = true →
   ∀ res', resources mid !! r = Some res' →
     Headers dsl w =
     Ret tt (set_resources
               (λ h, <[r := set_Resource_Headers (Some (length (attributes w))) res']> h)
               (set_ctxStack (drop 1) mid))).
Proof.
  intros Hc Hr Hrun.
  assert (Heq : Headers dsl w =
                when (succeeded w mid)
                     (update resources set_resources (Some r)
                             (set_Resource_Headers (Some (length (attributes w)))))
                     (set_ctxStack (drop 1) mid)).
  { unfold Headers. unfold bind at 1.
    rewrite actionDefinition_silent by (intros a; rewrite Hc; discriminate).
    unfold bind at 1. rewrite (resourceDefinition_resource false (Some r) w Hc).
    unfold bind at 1, deref at 1. rewrite Hr.
    by rewrite (block_run dsl _ _ w mid Hrun). }
  rewrite Heq. split; intros Hs; rewrite Hs; [done|].
  intros res' Hr'. by apply update_ok.
Qed.

(** In the block of "Account" with a callback that reports an error: the
    attribute is created and nothing is assigned. *)
Lemma Headers_in_resource_witness :
  Headers (ReportError "boom") (inContext [DResource (Some 0)] mediaWorld) =
  Ret tt (set_ctxStack (drop 1)
            (addErrors ["boom"]
               (blockWorld "application/vnd.account"
                  (inContext [DResource (Some 0)] mediaWorld)))).
Proof.
  apply (proj1 (Headers_in_resource (ReportError "boom")
                  (inContext [DResource (Some 0)] mediaWorld)
                  (addErrors ["boom"]
                     (blockWorld "application/vnd.account"
                        (inContext [DResource (Some 0)] mediaWorld)))
                  0 mediaAccount eq_refl eq_refl eq_refl) eq_refl).
Defined.

Lemma responseMediaType_ok (w : World) (parent : option DSLDefinition) (mtid : string) :
  ownerMediaType w parent = Some mtid →
  responseMediaType parent w = Ret mtid w.
Proof.
  unfold ownerMediaType, responseMediaType, parentMediaType, parentOf, actionOf, bind, deref, ret.
  destruct parent as [[[pa|]|[pa|]| |]|]; simpl; try discriminate; try (by intros [= <-]).
  - destruct (resources w !! pa); simpl; [by intros [= <-]|discriminate].
  - destruct (actions w !! pa) as [act|]; simpl; [|discriminate].
    destruct (Action_Parent act) as [r|]; simpl; [|discriminate].
    destruct (resources w !! r); simpl; [by intros [= <-]|discriminate].
Qed.

(** The response branch of [Headers] on a response without headers, up to
    the result of the callback. *)
Lemma Headers_response_eq (dsl : DSL) (w mid : World) (r : nat)
    (rsp : ResponseDefinition) (mtid : string) :
  current w = Some (DResponse (Some r)) →
  responses w !! r = Some rsp →
  Response_Headers rsp = None →
  ownerMediaType w (Response_Parent rsp) = Some mtid →
  dsl (blockWorld mtid w) = Ret tt mid →
  Headers dsl w =
  when (succeeded w mid)
       (update responses set_responses (Some r)
               (set_Response_Headers (Some (length (attributes w)))))
       (set_ctxStack (drop 1) mid).
Proof.
  intros Hc Hr Hnil Hmt Hrun.
  unfold Headers. unfold bind at 1.
  rewrite actionDefinition_silent by (intros a; rewrite Hc; discriminate).
  unfold bind at 1.
  rewrite resourceDefinition_silent by (intros a; rewrite Hc; discriminate).
  unfold bind at 1. rewrite (responseDefinition_response true (Some r) w Hc).
  unfold bind at 1, deref at 1. rewrite Hr, Hnil.
  rewrite bool_decide_eq_false_2 by (by intros []).
  unfold bind at 1. rewrite (responseMediaType_ok w _ mtid Hmt).
  by rewrite (block_run dsl _ _ w mid Hrun).
Qed.

(** X3: [Headers] in the block of a response that has no headers yet.  The
    media type is the one of the resource that owns the response (the parent
    itself, or the parent of the parent action; the empty identifier for any
    other parent).  The callback starts on a new attribute based on it, and
    the attribute becomes the [Headers] of the response exactly when the
    callback returns without a new error. *)
Theorem Headers_in_response (dsl : DSL) (w mid : World) (r : nat)
    (rsp : ResponseDefinition) (mtid : string) :
  current w = Some (DResponse (Some r)) →
  responses w !! r = Some rsp →
  Response_Headers rsp = None →
  ownerMediaType w (Response_Parent rsp) = Some mtid →
  dsl (blockWorld mtid w) = Ret tt mid →
  (succeeded w mid = false →
   Headers dsl w = Ret tt (set_ctxStack (drop 1) mid)) ∧
  (succeeded w mid = true →
   ∀ rsp', responses mid !! r = Some rsp' →
     Headers dsl w =
     Ret tt (set_responses
               (λ h, <[r := set_Response_Headers (Some (length (attributes w))) rsp']> h)
               (set_ctxStack (drop 1) mid))).
Proof.
  intros Hc Hr Hnil Hmt Hrun.
  rewrite (Headers_response_eq dsl w mid r rsp mtid Hc Hr Hnil Hmt Hrun).
  split; intros Hs; rewrite Hs; [done|].
  intros rsp' Hr'. by apply update_ok.
Qed.

(** The response of "Update": its owner is "Account", through the action. *)
Lemma Headers_in_response_witness :
  Headers (ret tt) (inContext [DResponse (Some 0)] mediaWorld) =
  Ret tt (set_responses
            (λ h, <[0 := mkResponse (Some (DAction (Some 0))) (Some 0)]> h)
            (set_ctxStack (drop 1)
               (blockWorld "application/vnd.account"
                  (inContext [DResponse (Some 0)] mediaWorld)))).
Proof.
  apply (proj2 (Headers_in_response (ret tt)
                  (inContext [DResponse (Some 0)] mediaWorld)
                  (blockWorld "application/vnd.account"
                     (inContext [DResponse (Some 0)] mediaWorld))
                  0 (mkResponse (Some (DAction (Some 0))) None) "application/vnd.account"
                  eq_refl eq_refl eq_refl eq_refl eq_refl)
               eq_refl (mkResponse (Some (DAction (Some 0))) None) eq_refl).
Defined.

(** X4: [Params] in the block of an action whose parent resource exists:
    the callback starts on a new attribute based on the resource's media
    type, which becomes the [Params] of the action exactly when the callback
    returns without a new error. *)
Theorem Params_in_action (dsl : DSL) (w mid : World) (a r : nat)
    (act : ActionDefinition) (res : ResourceDefinition) :
  current w = Some (DAction (Some a)) →
  actions w !! a = Some act →
  Action_Parent act = Some r →
  resources w !! r = Some res →
  dsl (blockWorld (Resource_MediaType res) w) = Ret tt mid →
  (succeeded w mid = false →
   Params dsl w = Ret tt (set_ctxStack (drop 1) mid)) ∧
  (succeeded w mid = true →
   ∀ act', actions mid !! a = Some act' →
     Params dsl w =
     Ret tt (set_actions
               (λ h, <[a := set_Action_Params (Some (length (attributes w))) act']> h)
               (set_ctxStack (drop 1) mid))).
Proof.
  intros Hc Ha Hp Hr Hrun.
  assert (Heq : Params dsl w =
                when (succeeded w mid)
                     (update actions set_actions (Some a)
                             (set_Action_Params (Some (length (attributes w)))))
                     (set_ctxStack (drop 1) mid)).
  { unfold Params. unfold bind at 1.
    rewrite (actionDefinition_action false (Some a) w Hc).
    unfold bind at 1. rewrite (parentMediaType_ok w a r act res Ha Hp Hr).
    by rewrite (block_run dsl _ _ w mid Hrun). }
  rewrite Heq. split; intros Hs; rewrite Hs; [done|].
  intros act' Ha'. by apply update_ok.
Qed.

(** In the action "Update", with a callback that reports an error. *)
Lemma Params_in_action_witness :
  Params (ReportError "boom") (inContext [DAction (Some 0); DResource (Some 0)] mediaWorld) =
  Ret tt (set_ctxStack (drop 1)
            (addErrors ["boom"]
               (blockWorld "application/vnd.account"
                  (inContext [DAction (Some 0); DResource (Some 0)] mediaWorld)))).
Proof.
  apply (proj1 (Params_in_action (ReportError "boom")
                  (inContext [DAction (Some 0); DResource (Some 0)] mediaWorld)
                  (addErrors ["boom"]
                     (blockWorld "application/vnd.account"
                        (inContext [DAction (Some 0); DResource (Some 0)] mediaWorld)))
                  0 0 updateAction mediaAccount
                  eq_refl eq_refl eq_refl eq_refl eq_refl) eq_refl).
Defined.

(** X5: [Params] in the block of a resource: the callback starts on a new
    attribute based on the resource's media type, which becomes the [Params]
    of the resource exactly when the callback returns without a new error. *)
Theorem Params_in_resource (dsl : DSL) (w mid : World) (r : nat) (res : ResourceDefinition) :
  current w = Some (DResource (Some r)) →
  resources w !! r = Some res →
  dsl (blockWorld (Resource_MediaType res) w) = Ret tt mid →
  (succeeded w mid = false →
   Params dsl w = Ret tt (set_ctxStack (drop 1) mid)) ∧
  (succeeded w mid = true →
   ∀ res', resources mid !! r = Some res' →
     Params dsl w =
     Ret tt (set_resources
               (λ h, <[r := set_Resource_Params (Some (length (attributes w))) res']> h)
               (set_ctxStack (drop 1) mid))).
Proof.
  intros Hc Hr Hrun.
  assert (Heq : Params dsl w =
                when (succeeded w mid)
                     (update resources set_resources (Some r)
                             (set_Resource_Params (Some (length (attributes w)))))
                     (set_ctxStack (drop 1) mid)).
  { unfold Params. unfold bind at 1.
    rewrite actionDefinition_silent by (intros a; rewrite Hc; discriminate).
    unfold bind at 1. rewrite (resourceDefinition_resource true (Some r) w Hc).
    unfold bind at 1, deref at 1. rewrite Hr.
    by rewrite (block_run dsl _ _ w mid Hrun). }
  rewrite Heq. split; intros Hs; rewrite Hs; [done|].
  intros res' Hr'. by apply update_ok.
Qed.

(** In the block of "Account" with a callback that declares nothing. *)
Lemma Params_in_resource_witness :
  Params (ret tt) (inContext [DResource (Some 0)] mediaWorld) =
  Ret tt (set_resources
            (λ h, <[0 := set_Resource_Params (Some 0) mediaAccount]> h)
            (set_ctxStack (drop 1)
               (blockWorld "application/vnd.account"
                  (inContext [DResource (Some 0)] mediaWorld)))).
Proof.
  apply (proj2 (Params_in_resource (ret tt)
                  (inContext [DResource (Some 0)] mediaWorld)
                  (blockWorld "application/vnd.account"
                     (inContext [DResource (Some 0)] mediaWorld))
                  0 mediaAccount eq_refl eq_refl eq_refl) eq_refl mediaAccount eq_refl).
Defined.

Lemma Headers_defined_eq (dsl : DSL) (w : World) (r h : nat) (rsp : ResponseDefinition) :
  current w = Some (DResponse (Some r)) →
  responses w !! r = Some rsp →
  Response_Headers rsp = Some h →
  Headers dsl w = Ret tt (addErrors [headersAlreadyDefined] w).
Proof.
  intros Hc Hr Hh. unfold Headers, bind.
  rewrite actionDefinition_silent by (intros a; rewrite Hc; discriminate).
  rewrite resourceDefinition_silent by (intros a; rewrite Hc; discriminate).
  rewrite (responseDefinition_response true (Some r) w Hc).
  unfold deref. rewrite Hr, Hh. by rewrite bool_decide_eq_true_2.
Qed.

(** X6: [Headers] twice in the block of a response without headers, the
    first time with a callback that only works on attributes.  The first
    call assigns the new attribute to the response.  The second call does
    not run its callback: it reports "headers already defined", and the
    response, the attributes and the context stack are those the first call
    left. *)
Theorem Headers_twice_on_response (dsl1 dsl2 : DSL) (w : World) (r : nat)
    (rsp : ResponseDefinition) (mtid : string) :
  current w = Some (DResponse (Some r)) →
  responses w !! r = Some rsp →
  Response_Headers rsp = None →
  ownerMediaType w (Response_Parent rsp) = Some mtid →
  attributesOnly dsl1 →
  ∃ w1 w2,
    Headers dsl1 w = Ret tt w1 ∧
    Headers dsl2 w1 = Ret tt w2 ∧
    responses w1 = <[r := set_Response_Headers (Some (length (attributes w))) rsp]> (responses w) ∧
    Errors w1 = Errors w ∧
    responses w2 = responses w1 ∧
    attributes w2 = attributes w1 ∧
    Errors w2 = Errors w ++ [headersAlreadyDefined] ∧
    ctxStack w2 = ctxStack w.
Proof.
  intros Hc Hr Hnil Hmt Honly.
  destruct (Honly (blockWorld mtid w)) as (atts & Hrun).
  set (mid := set_attributes (λ _, atts) (blockWorld mtid w)) in *.
  assert (Hs : succeeded w mid = true) by (unfold succeeded; simpl; apply Nat.leb_refl).
  pose proof (Headers_response_eq dsl1 w mid r rsp mtid Hc Hr Hnil Hmt Hrun) as H1.
  rewrite Hs in H1. simpl in H1.
  rewrite (update_ok responses set_responses r _ _ rsp) in H1 by exact Hr.
  eexists _, _. split; [exact H1|]. split.
  - eapply (Headers_defined_eq dsl2 _ r (length (attributes w))).
    + simpl. exact Hc.
    + simpl. by rewrite list_lookup_insert_eq by (by apply lookup_lt_Some in Hr).
    + done.
  - by repeat split.
Qed.

(** On the response of "Update", with callbacks that declare nothing. *)
Lemma Headers_twice_on_response_witness :
  ∃ w1 w2,
    Headers (ret tt) (inContext [DResponse (Some 0)] mediaWorld) = Ret tt w1 ∧
    Headers (ret tt) w1 = Ret tt w2 ∧
    responses w1 = <[0 := mkResponse (Some (DAction (Some 0))) (Some 0)]>
                     [mkResponse (Some (DAction (Some 0))) None] ∧
    Errors w1 = [] ∧
    responses w2 = responses w1 ∧
    attributes w2 = attributes w1 ∧
    Errors w2 = [] ++ [headersAlreadyDefined] ∧
    ctxStack w2 = [DResponse (Some 0)].
Proof.
  apply (Headers_twice_on_response (ret tt) (ret tt)
           (inContext [DResponse (Some 0)] mediaWorld) 0
           (mkResponse (Some (DAction (Some 0))) None) "application/vnd.account");
    try reflexivity.
  intros w. exists (attributes w). by destruct w.
Defined.

(** ** More on Payload *)

(** X7: more than one callback after the source.  Whatever the source and
    whatever the context, even outside the block of an action, [Payload]
    reports "too many arguments given to Payload" and does nothing else: no
    context is asked for, no callback runs, no payload is assigned. *)
Theorem Payload_too_many_arguments (camelize : string → string) (p : PayloadArg)
    (dsls : list (option DSL)) (w : World) :
  (1 < length dsls)%nat →
  Payload camelize p dsls w = Ret tt (addErrors [tooManyArguments] w).
Proof.
  intros Hlen. unfold Payload.
  by destruct (Nat.ltb_spec 1 (length dsls)) as [_|]; [|lia].
Qed.

(** A registered type followed by two callbacks, with no block open. *)
Lemma Payload_too_many_arguments_witness :
  Payload exampleCamelize (PString "AccountPayload") [Some (ret tt); Some (ret tt)] noContext =
  Ret tt (addErrors ["too many arguments given to Payload"] noContext).
Proof.
  apply (Payload_too_many_arguments exampleCamelize (PString "AccountPayload")
           [Some (ret tt); Some (ret tt)] noContext).
  simpl; lia.
Defined.

(** A normal return of [Payload] goes through the assignment of the
    attribute that the source gave. *)
Lemma Payload_assigns_source (camelize : string → string) (p : PayloadArg)
    (dsls : list (option DSL)) (w w1 w' : World) (a att : ptr) (dsl : option DSL) :
  current w = Some (DAction a) →
  (length dsls ≤ 1)%nat →
  payloadSource a p w = Ret (att, dsl) w1 →
  Payload camelize p dsls w = Ret tt w' →
  ∃ w2, assignPayload camelize a att w2 = Ret tt w'.
Proof.
  intros Hc Hlen Hsrc. unfold Payload.
  destruct (Nat.ltb_spec 1 (length dsls)) as [|_]; [lia|].
  unfold bind at 1. rewrite (actionDefinition_action true a w Hc).
  unfold bind at 1. rewrite Hsrc.
  unfold bind at 1.
  destruct dsls as [|d [|]]; simpl in Hlen; [| |lia].
  - unfold ret at 1. unfold bind at 1.
    destruct dsl as [f|].
    + unfold bind at 1. destruct (executeDSL f (DAttribute att) w1); [|discriminate].
      unfold ret at 1. eauto.
    + unfold ret at 1. eauto.
  - unfold bind at 1.
    destruct (when _ _ w1) as [[] w1'|]; [|discriminate].
    unfold ret at 1. unfold bind at 1.
    destruct d as [f|].
    + unfold bind at 1. destruct (executeDSL f (DAttribute att) w1'); [|discriminate].
      unfold ret at 1. eauto.
    + unfold ret at 1. eauto.
Qed.

(** X8: the attribute of the payload is the one the source gave, with or
    without an override callback.  For a callback source it is the attribute
    created by the call; for a prebuilt attribute it is that attribute; for a
    data structure it is what its [Definition] method returned; for the name
    of a type it is the attribute of the registered type itself, shared and
    not copied, so that what an override does to it is done to the registered
    type; for any other source it is nil. *)
Theorem Payload_attribute_of_source (camelize : string → string) (p : PayloadArg)
    (dsls : list (option DSL)) (w w' : World) (a : ptr) :
  current w = Some (DAction a) →
  (length dsls ≤ 1)%nat →
  Payload camelize p dsls w = Ret tt w' →
  ∃ att,
    UserType_AttributeDefinition <$> payloadOf w' a = Some att ∧
    match p with
    | PFunc _ => att = Some (length (attributes w))
    | PAttribute actual => att = actual
    | PDataStructure actual => ∃ w1, Definition_ actual w = Ret att w1
    | PString actual =>
        ∃ u ut, Types (Design w) !! actual = Some (Some u) ∧
                usertypes w !! u = Some ut ∧
                att = UserType_AttributeDefinition ut
    | _ => att = None
    end.
Proof.
  intros Hc Hlen Hret.
  assert (Hsrc : ∃ att dsl w1, payloadSource a p w = Ret (att, dsl) w1).
  { revert Hret. unfold Payload.
    destruct (Nat.ltb_spec 1 (length dsls)) as [|_]; [lia|].
    unfold bind at 1. rewrite (actionDefinition_action true a w Hc).
    unfold bind at 1.
    destruct (payloadSource a p w) as [[att dsl] w1|]; [eauto|discriminate]. }
  destruct Hsrc as (att & dsl & w1 & Hsrc).
  destruct (Payload_assigns_source camelize p dsls w w1 w' a att dsl Hc Hlen Hsrc Hret)
    as (w2 & Hassign).
  destruct (assignPayload_named camelize a att w2 w' Hassign) as (an & rn & _ & _ & Hpay & _).
  exists att. split; [by rewrite Hpay|].
  revert Hsrc. destruct p as [f|actual|ds|s| | |]; simpl.
  - unfold bind at 1.
    destruct (parentMediaType a w) as [mt w0|] eqn:Hmt; [|discriminate].
    assert (w0 = w) as ->.
    { revert Hmt. unfold parentMediaType, bind, deref, ret.
      destruct a as [l|]; [|discriminate].
      destruct (actions w !! l) as [act|]; [|discriminate].
      destruct (Action_Parent act) as [r|]; [|discriminate].
      destruct (resources w !! r); [|discriminate].
      by intros [= _ <-]. }
    unfold bind at 1. rewrite newAttribute_eq.
    unfold bind at 1.
    destruct (update _ _ _ _ _) as [[] ?|]; [|discriminate].
    by intros [= <- _ _].
  - by intros [= <- _ _].
  - unfold bind. destruct (Definition_ ds w) as [att' w0|]; [|discriminate].
    intros [= <- _ _]. eauto.
  - unfold bind, gets, deref.
    destruct (Types (Design w) !! s) as [[u|]|]; simpl; try discriminate.
    destruct (usertypes w !! u) as [ut|] eqn:Hu; [|discriminate].
    intros [= <- _ _]. by exists u, ut.
  - by intros [= <- _ _].
  - by intros [= <- _ _].
  - by intros [= <- _ _].
Qed.

(** The registered type "AccountPayload" with an override: the payload of
    "Update" points to attribute 0, the attribute of the registered type. *)
Lemma Payload_attribute_of_source_witness :
  ∃ att,
    UserType_AttributeDefinition <$>
      payloadOf (outcomeWorld (Payload exampleCamelize (PString "AccountPayload")
                                 [Some (ret tt)] updateAccountTyped)) (Some 0) = Some att ∧
    ∃ u ut, Types (Design updateAccountTyped) !! "AccountPayload" = Some (Some u) ∧
            usertypes updateAccountTyped !! u = Some ut ∧
            att = UserType_AttributeDefinition ut.
Proof.
  apply (Payload_attribute_of_source exampleCamelize (PString "AccountPayload")
           [Some (ret tt)] updateAccountTyped _ (Some 0));
    [reflexivity | simpl; lia | vm_compute; reflexivity].
Defined.





Lemma payloadSource_callback (w : World) (a r : nat) (actual : option DSL) act res :
  actions w !! a = Some act → Action_Parent act = Some r → resources w !! r = Some res →
  payloadSource (Some a) (PFunc actual) w =
  Ret (Some (length (attributes w)), actual)
      (set_attributes
         (λ h, h ++ [mkAttribute (Some (Object ∅)) (baseType w (Resource_MediaType res))]) w).
Proof.
  intros Ha Hp Hr. unfold payloadSource.
  unfold bind at 1. rewrite (parentMediaType_ok w a r act res Ha Hp Hr).
  unfold bind at 1. rewrite newAttribute_eq.
  unfold bind at 1.
  erewrite update_ok by (simpl; by rewrite lookup_app_r, Nat.sub_diag by lia).
  unfold ret. f_equal. destruct w; unfold set_attributes; simpl. f_equal.
  rewrite insert_app_r_alt by lia. by rewrite Nat.sub_diag.
Qed.

(** X10: a callback as the source, alone, in the block of an action whose
    parent resource exists.  The callback starts on a new attribute of type
    [Object], empty, based on the resource's media type, as innermost
    context.  When it returns, and the action and its resource are still
    there, [Payload] pops the context and makes that attribute the payload
    of the action, under the name synthesized from the names the action and
    the resource then have. *)
Theorem Payload_inline (camelize : string → string) (f : DSL) (w mid : World) (a r r' : nat)
    (act act' : ActionDefinition) (res res' : ResourceDefinition) :
  current w = Some (DAction (Some a)) →
  actions w !! a = Some act →
  Action_Parent act = Some r →
  resources w !! r = Some res →
  f (inlineWorld (Resource_MediaType res) w) = Ret tt mid →
  actions mid !! a = Some act' →
  Action_Parent act' = Some r' →
  resources mid !! r' = Some res' →
  Payload camelize (PFunc (Some f)) [] w =
  Ret tt (set_actions
            (λ h, <[a := set_Action_Payload (Some (length (usertypes mid))) act']> h)
            (set_usertypes
               (λ h, h ++ [mkUserType (Some (length (attributes w)))
                             (synthesizedName camelize (Action_Name act') (Resource_Name res'))])
               (set_ctxStack (drop 1) mid))).
Proof.
  intros Hc Ha Hp Hr Hrun Ha' Hp' Hr'.
  pose proof (payloadSource_callback w a r (Some f) act res Ha Hp Hr) as Hsrc.
  set (p := PFunc (Some f)) in *. clearbody p.
  unfold Payload; simpl. unfold bind at 1.
  rewrite (actionDefinition_action true (Some a) w Hc).
  unfold bind at 1. rewrite Hsrc.
  unfold bind at 1, ret at 1. unfold bind at 1, bind at 1.
  rewrite (executeDSL_run f _ _ mid Hrun). unfold ret at 1.
  by rewrite (assignPayload_ok camelize a r' _ _ act' res').
Qed.

(** [Payload] with a callback that declares nothing, in "Update". *)
Lemma Payload_inline_witness :
  Payload exampleCamelize (PFunc (Some (ret tt))) []
          (inContext [DAction (Some 0); DResource (Some 0)] mediaWorld) =
  Ret tt (set_actions
            (λ h, <[0 := set_Action_Payload (Some 0) updateAction]> h)
            (set_usertypes
               (λ h, h ++ [mkUserType (Some 0) "UpdateAccountPayload"])
               (set_ctxStack (drop 1)
                  (inlineWorld "application/vnd.account"
                     (inContext [DAction (Some 0); DResource (Some 0)] mediaWorld))))).
Proof.
  apply (Payload_inline exampleCamelize (ret tt)
           (inContext [DAction (Some 0); DResource (Some 0)] mediaWorld)
           (inlineWorld "application/vnd.account"
              (inContext [DAction (Some 0); DResource (Some 0)] mediaWorld))
           0 0 0 updateAction updateAction mediaAccount mediaAccount);
    reflexivity.
Defined.

(** ** More on Routing *)

Lemma forM__app {A} (f : A → M unit) (l1 l2 : list A) (w : World) :
  forM_ (l1 ++ l2) f w = (forM_ l1 f ;; forM_ l2 f) w.
Proof.
  revert w. induction l1 as [|x l1 IH]; intros w; simpl; [done|].
  unfold bind. destruct (f x w) as [[] w1|]; [|done].
  rewrite IH. reflexivity.
Qed.

Lemma keepsStack_ret {A} (x : A) : keepsStack (ret x).
Proof. by intros w y w' [= _ <-]. Qed.

Lemma keepsStack_bind {A B} (m : M A) (k : A → M B) :
  keepsStack m → (∀ x, keepsStack (k x)) → keepsStack (bind m k).
Proof.
  intros Hm Hk w y w'. unfold bind.
  destruct (m w) as [x w1|] eqn:E; [|discriminate].
  intros H. rewrite (Hk x w1 y w' H). exact (Hm w x w1 E).
Qed.

Lemma keepsStack_deref {T} (heap : World → list T) (p : ptr) : keepsStack (deref heap p).
Proof.
  intros w x w'. unfold deref. destruct p as [l|]; [|discriminate].
  destruct (heap w !! l); [|discriminate]. by intros [= _ <-].
Qed.

Lemma keepsStack_gets {A} (f : World → A) : keepsStack (gets f).
Proof. by intros w x w' [= _ <-]. Qed.

Lemma keepsStack_ReportError (msg : string) : keepsStack (ReportError msg).
Proof. intros w x w'. unfold ReportError, modify. by intros [= _ <-]. Qed.

Lemma keepsStack_update {T} (heap : World → list T)
    (set : (list T → list T) → World → World) (p : ptr) (f : T → T) :
  (∀ g w, ctxStack (set g w) = ctxStack w) → keepsStack (update heap set p f).
Proof.
  intros Hset. unfold update. apply keepsStack_bind; [apply keepsStack_deref|].
  intros v. destruct p as [l|]; [|by intros w x w' [=]].
  intros w x w' [= _ <-]. apply Hset.
Qed.

Lemma keepsStack_forM {A} (f : A → M unit) (l : list A) :
  (∀ x, keepsStack (f x)) → keepsStack (forM_ l f).
Proof.
  intros Hf. induction l as [|x l IH]; simpl; [apply keepsStack_ret|].
  apply keepsStack_bind; [apply Hf|by intros _].
Qed.

Section RoutingMore.

Variable ExtractWildcards : string → list string.
Variable FullPath : APIDefinition → list ResourceDefinition → ResourceDefinition → string.

Lemma keepsStack_parentFullPath (a : ptr) : keepsStack (parentFullPath FullPath a).
Proof.
  unfold parentFullPath.
  apply keepsStack_bind; [apply keepsStack_deref|intros act].
  apply keepsStack_bind; [apply keepsStack_deref|intros res].
  apply keepsStack_gets.
Qed.

Lemma keepsStack_attachRoute (a r : ptr) :
  keepsStack (attachRoute ExtractWildcards FullPath a r).
Proof.
  unfold attachRoute.
  apply keepsStack_bind; [apply keepsStack_parentFullPath|intros fp].
  apply keepsStack_bind; [apply keepsStack_deref|intros rt].
  apply keepsStack_bind.
  { unfold reportDuplicates. apply keepsStack_forM. intros rwc.
    apply keepsStack_forM. intros wc. destruct (String.eqb rwc wc); [|apply keepsStack_ret].
    apply keepsStack_bind; [apply keepsStack_parentFullPath|intros fp'].
    apply keepsStack_bind; [apply keepsStack_deref|intros rt'].
    apply keepsStack_ReportError. }
  intros _. apply keepsStack_bind; [by apply keepsStack_update|intros _].
  apply keepsStack_bind; [apply keepsStack_deref|intros act].
  by apply keepsStack_update.
Qed.

(** X11: in the block of an action, [Routing] on a list of routes followed
    by another is [Routing] on the first list and then [Routing] on the
    second: same world, same errors in the same order, and the same panic if
    there is one.  No assumption is made on the routes or on the action. *)
Theorem Routing_app (rts1 rts2 : list ptr) (w : World) (a : ptr) :
  current w = Some (DAction a) →
  Routing ExtractWildcards FullPath (rts1 ++ rts2) w =
  (Routing ExtractWildcards FullPath rts1 ;; Routing ExtractWildcards FullPath rts2) w.
Proof.
  intros Hc. unfold Routing, bind.
  rewrite (actionDefinition_action true a w Hc).
  rewrite forM__app. unfold bind.
  destruct (forM_ rts1 _ w) as [[] w1|] eqn:E; [|done].
  assert (Hc1 : current w1 = Some (DAction a)).
  { unfold current.
    rewrite (keepsStack_forM _ rts1 (keepsStack_attachRoute a) w tt w1 E). exact Hc. }
  by rewrite (actionDefinition_action true a w1 Hc1).
Qed.

End RoutingMore.

(** The three routes of the example, in one call and in two. *)
Lemma Routing_app_witness :
  Routing exampleExtractWildcards exampleFullPath ([Some 0; Some 1] ++ [Some 2])
          updateAccountRoutes =
  (Routing exampleExtractWildcards exampleFullPath [Some 0; Some 1] ;;
   Routing exampleExtractWildcards exampleFullPath [Some 2]) updateAccountRoutes.
Proof.
  apply (Routing_app exampleExtractWildcards exampleFullPath [Some 0; Some 1] [Some 2]
           updateAccountRoutes (Some 0)).
  reflexivity.
Defined.

(** X12: what [Routing] leaves alone.  In an action whose parent resource
    exists, on routes that exist: the routes that are not among the
    arguments are as they were, the other actions are as they were, the
    action keeps its parent, name, headers, params and payload, and the
    resources, responses, attributes, user types, design and context stack
    are those of before the call. *)
Theorem Routing_frame
    (ExtractWildcards : string → list string)
    (FullPath : APIDefinition → list ResourceDefinition → ResourceDefinition → string)
    (rts : list ptr) (w : World) (a : nat) (act : ActionDefinition) (P : string) :
  current w = Some (DAction (Some a)) →
  actionAt FullPath w a act P →
  Forall (validRoute w) rts →
  ∃ w' act',
    Routing ExtractWildcards FullPath rts w = Ret tt w' ∧
    (∀ l rt, routes w !! l = Some rt → Some l ∉ rts → routes w' !! l = Some rt) ∧
    (∀ a', a' ≠ a → actions w' !! a' = actions w !! a') ∧
    actions w' !! a = Some act' ∧
    Action_Parent act' = Action_Parent act ∧ Action_Name act' = Action_Name act ∧
    Action_Headers act' = Action_Headers act ∧ Action_Params act' = Action_Params act ∧
    Action_Payload act' = Action_Payload act ∧
    resources w' = resources w ∧ responses w' = responses w ∧
    attributes w' = attributes w ∧ usertypes w' = usertypes w ∧
    Design w' = Design w ∧ ctxStack w' = ctxStack w.
Proof.
  intros Hc Ha Hv.
  destruct (Routing_loop ExtractWildcards FullPath rts w a act P Ha Hv) as (w' & Hrun & Hpost).
  destruct Hpost as (HD & Hres & Hrsp & Hatt & Hut & Hctx & Hact & _ & Hrts).
  destruct Ha as (Ha & _).
  exists w', (set_Action_Routes (Action_Routes act ++ rts) act).
  split; [unfold Routing, bind; by rewrite (actionDefinition_action true (Some a) w Hc)|].
  split.
  { intros l rt Hl Hnot. rewrite (Hrts l rt Hl). by rewrite bool_decide_eq_false_2. }
  split; [intros a' Hne; rewrite Hact; by rewrite list_lookup_insert_ne|].
  split; [rewrite Hact; by rewrite list_lookup_insert_eq by (by apply lookup_lt_Some in Ha)|].
  by repeat split.
Qed.

(** The first and the last route of the example are attached: the second
    one, which is not an argument, keeps its nil parent. *)
Lemma Routing_frame_witness :
  ∃ w', Routing exampleExtractWildcards exampleFullPath [Some 0; Some 2]
                updateAccountRoutes = Ret tt w' ∧
        routes w' !! 1 = Some (mkRoute "PUT" "/:accountID/rename" None) ∧
        resources w' = [accountResource].
Proof.
  destruct (Routing_frame exampleExtractWildcards exampleFullPath [Some 0; Some 2]
              updateAccountRoutes 0 updateAction "/accounts/:accountID")
    as (w' & act' & Hrun & Hrts & _ & _ & _ & _ & _ & _ & _ & Hres & _).
  - reflexivity.
  - split; [reflexivity|]. by exists 0, accountResource.
  - repeat constructor; unfold validRoute; simpl; eauto.
  - exists w'. split; [exact Hrun|]. split; [|exact Hres].
    apply Hrts; [reflexivity|].
    intros Hin. repeat (apply elem_of_cons in Hin as [[=]|Hin]). by apply elem_of_nil in Hin.
Defined.

Section RouteConstructors.

Variable ExtractWildcards : string → list string.
Variable FullPath : APIDefinition → list ResourceDefinition → ResourceDefinition → string.

Lemma new_route_attached (verb path : string) (w : World) (a : nat)
    (act : ActionDefinition) (P : string) :
  current w = Some (DAction (Some a)) →
  actionAt FullPath w a act P →
  ∃ w', (p <- alloc routes set_routes (mkRoute verb path None) ;;
         Routing ExtractWildcards FullPath [p]) w = Ret tt w' ∧
        routes w' = routes w ++ [mkRoute verb path (Some a)] ∧
        Action_Routes <$> actions w' !! a =
          Some (Action_Routes act ++ [Some (length (routes w))]) ∧
        Errors w' = Errors w ++ duplicateErrors ExtractWildcards P path.
Proof.
  intros Hc Ha.
  set (w0 := set_routes (λ h, h ++ [mkRoute verb path None]) w).
  assert (Ha0 : actionAt FullPath w0 a act P) by exact Ha.
  assert (Hl : routes w0 !! length (routes w) = Some (mkRoute verb path None))
    by (subst w0; simpl; by rewrite lookup_app_r, Nat.sub_diag by lia).
  eexists. split.
  { unfold bind at 1, alloc. fold w0. unfold Routing, bind at 1.
    rewrite (actionDefinition_action true (Some a) w0 Hc). simpl. unfold bind at 1.
    rewrite (attachRoute_ok ExtractWildcards FullPath w0 a act P _ _ Ha0 Hl). reflexivity. }
  destruct Ha as (Ha & _). simpl.
  rewrite list_lookup_insert_eq by (by apply lookup_lt_Some in Ha). simpl.
  rewrite insert_app_r_alt, Nat.sub_diag by lia.
  by repeat split.
Qed.

(** X13: every route constructor followed by [Routing], in an action whose
    parent resource has full path [P].  The constructor named after a verb
    creates a route of that verb ([CONNECT] creates a CONNECT route) and of
    the path given; [Routing] makes the action its parent and appends it to
    the routes of the action, reporting the wildcards it shares with [P]. *)
Theorem constructed_route_attached (verb path : string) (mk : string → M ptr)
    (w : World) (a : nat) (act : ActionDefinition) (P : string) :
  (verb, mk) ∈ routeConstructors →
  current w = Some (DAction (Some a)) →
  actionAt FullPath w a act P →
  ∃ w', (p <- mk path ;; Routing ExtractWildcards FullPath [p]) w = Ret tt w' ∧
        routes w' = routes w ++ [mkRoute verb path (Some a)] ∧
        Action_Routes <$> actions w' !! a =
          Some (Action_Routes act ++ [Some (length (routes w))]) ∧
        Errors w' = Errors w ++ duplicateErrors ExtractWildcards P path.
Proof.
  intros Hin Hc Ha. unfold routeConstructors in Hin.
  repeat (apply elem_of_cons in Hin as [[= -> ->]|Hin];
          [by apply new_route_attached|]).
  by apply elem_of_nil in Hin.
Qed.

End RouteConstructors.

(** [Routing(CONNECT("/:accountID/tunnel"))] in "Update": a CONNECT route,
    and one duplicate wildcard. *)
Lemma constructed_route_attached_witness :
  ∃ w', (p <- CONNECT "/:accountID/tunnel" ;;
         Routing exampleExtractWildcards exampleFullPath [p]) updateAccount = Ret tt w' ∧
        routes w' = [] ++ [mkRoute "CONNECT" "/:accountID/tunnel" (Some 0)] ∧
        Action_Routes <$> actions w' !! 0 = Some ([] ++ [Some 0]) ∧
        Errors w' = [] ++ [duplicateWildcard "accountID" "/accounts/:accountID"
                             "/:accountID/tunnel"].
Proof.
  apply (constructed_route_attached exampleExtractWildcards exampleFullPath
           "CONNECT" "/:accountID/tunnel" CONNECT updateAccount 0 updateAction
           "/accounts/:accountID").
  - unfold routeConstructors. do 6 apply list_elem_of_further. apply list_elem_of_here.
  - reflexivity.
  - split; [reflexivity|]. by exists 0, accountResource.
Defined.

(** X14: a nil route among the arguments.  In an action whose parent
    resource exists, [Routing] on existing routes followed by a nil route
    and by any other routes panics on reading the path of the nil route, in
    the world that [Routing] on the routes before it leaves: those are
    attached, their duplicates reported, and no route after it is looked
    at. *)
Theorem Routing_nil_route
    (ExtractWildcards : string → list string)
    (FullPath : APIDefinition → list ResourceDefinition → ResourceDefinition → string)
    (rts rest : list ptr) (w : World) (a : nat) (act : ActionDefinition) (P : string) :
  current w = Some (DAction (Some a)) →
  actionAt FullPath w a act P →
  Forall (validRoute w) rts →
  ∃ w1, Routing ExtractWildcards FullPath rts w = Ret tt w1 ∧
        Routing ExtractWildcards FullPath (rts ++ None :: rest) w = Panic w1.
Proof.
  intros Hc Ha Hv.
  destruct (Routing_loop ExtractWildcards FullPath rts w a act P Ha Hv) as (w1 & Hrun & Hpost).
  destruct Hpost as (HD & Hres & _ & _ & _ & _ & Hact & _ & _).
  exists w1. unfold Routing, bind.
  rewrite (actionDefinition_action true (Some a) w Hc).
  split; [exact Hrun|].
  rewrite forM__app. unfold bind. rewrite Hrun. simpl. unfold bind.
  assert (Ha1 : actionAt FullPath w1 a (set_Action_Routes (Action_Routes act ++ rts) act) P).
  { destruct Ha as (Ha & r & res & Hp & Hr & HP). split.
    - rewrite Hact. by rewrite list_lookup_insert_eq by (by apply lookup_lt_Some in Ha).
    - exists r, res. by rewrite HD, Hres. }
  unfold attachRoute, bind.
  by rewrite (parentFullPath_ok FullPath w1 a _ P Ha1).
Qed.

(** The first route of the example, a nil route, the third route. *)
Lemma Routing_nil_route_witness :
  ∃ w1, Routing exampleExtractWildcards exampleFullPath [Some 0] updateAccountRoutes
          = Ret tt w1 ∧
        Routing exampleExtractWildcards exampleFullPath ([Some 0] ++ None :: [Some 2])
                updateAccountRoutes = Panic w1.
Proof.
  apply (Routing_nil_route exampleExtractWildcards exampleFullPath [Some 0] [Some 2]
           updateAccountRoutes 0 updateAction "/accounts/:accountID").
  - reflexivity.
  - split; [reflexivity|]. by exists 0, accountResource.
  - repeat constructor; unfold validRoute; simpl; eauto.
Defined.

(** ** More on Action *)

(** [Action] on a name that has no entry, up to the result of the callback. *)
Lemma Action_new_eq (name : string) (dsl : DSL) (w mid : World) (r : nat)
    (res : ResourceDefinition) :
  current w = Some (DResource (Some r)) →
  resources w !! r = Some res →
  declared w r name = None →
  dsl (declaring r name (ensureActions r w)) = Ret tt mid →
  Action name dsl w =
  (if negb (succeeded w mid) then ret tt
   else storeAction (Some r) name (Some (length (actions w)))) (set_ctxStack (drop 1) mid).
Proof.
  intros Hc Hr Hd Hrun. unfold declared in Hd. rewrite Hr in Hd. simpl in Hd.
  unfold ensureActions in Hrun. rewrite Hr in Hrun.
  unfold Action. unfold bind at 1.
  rewrite (resourceDefinition_resource true (Some r) w Hc).
  unfold bind at 1, deref at 1. rewrite Hr. unfold bind at 1.
  destruct (Resource_Actions res) as [m|] eqn:Hm.
  - simpl in Hd. rewrite bool_decide_eq_false_2 by done. unfold when, ret at 1.
    unfold bind at 1, deref at 1. rewrite Hr, Hm. unfold bind at 1. simpl. rewrite Hd.
    unfold alloc at 1. unfold bind at 1.
    by rewrite (executeDSL_run dsl _ _ mid Hrun).
  - rewrite bool_decide_eq_true_2 by done. unfold when.
    rewrite (update_ok resources set_resources r _ w res Hr).
    unfold bind at 1, deref at 1. simpl.
    rewrite list_lookup_insert_eq by (by apply lookup_lt_Some in Hr).
    unfold bind at 1. simpl. rewrite lookup_empty.
    unfold alloc at 1. unfold bind at 1.
    by rewrite (executeDSL_run dsl _ _ mid Hrun).
Qed.

(** X15: the first declaration of a name in the block of a resource.  The
    callback starts with a new action as innermost context, which has the
    resource as parent, the name, and nothing else.  When the callback
    returns without a new error and leaves the resource alone, the
    declaration returns, the new action is the entry under the name, the
    entries under the other names are those of before, and the actions are
    those the callback left. *)
Theorem Action_first_declaration (name : string) (dsl : DSL) (w mid : World) (r : nat)
    (res : ResourceDefinition) :
  current w = Some (DResource (Some r)) →
  resources w !! r = Some res →
  declared w r name = None →
  dsl (declaring r name (ensureActions r w)) = Ret tt mid →
  succeeded w mid = true →
  resources mid !! r = resources (ensureActions r w) !! r →
  ∃ w', Action name dsl w = Ret tt w' ∧
        declared w' r name = Some (Some (length (actions w))) ∧
        (∀ name', name' ≠ name → declared w' r name' = declared w r name') ∧
        actions w' = actions mid ∧
        Errors w' = Errors mid.
Proof.
  intros Hc Hr Hd Hrun Hs Hsame.
  rewrite (Action_new_eq name dsl w mid r res Hc Hr Hd Hrun), Hs. simpl.
  destruct (ensureActions_facts r w) as (_ & _ & _ & Hdecl).
  assert (∃ res0 m0, resources (ensureActions r w) !! r = Some res0 ∧
                     Resource_Actions res0 = Some m0) as (res0 & m0 & Hr0 & Hm0).
  { unfold ensureActions. rewrite Hr.
    destruct (Resource_Actions res) as [m|] eqn:Hm; [by exists res, m|].
    eexists _, ∅. simpl.
    by rewrite list_lookup_insert_eq by (by apply lookup_lt_Some in Hr). }
  rewrite Hr0 in Hsame.
  eexists. split.
  { unfold storeAction, bind, deref. simpl. rewrite Hsame, Hm0.
    by rewrite (update_ok resources set_resources r _ _ res0). }
  pose proof (lookup_lt_Some _ _ _ Hsame) as Hlt.
  split; [|split; [|done]].
  - unfold declared. simpl. rewrite list_lookup_insert_eq by done. simpl.
    by rewrite lookup_insert_eq.
  - intros name' Hne. rewrite <- (Hdecl name'). unfold declared. simpl.
    rewrite list_lookup_insert_eq by done. simpl.
    rewrite lookup_insert_ne by done. rewrite Hr0. simpl. by rewrite Hm0.
Qed.

(** "Update" declared on "Account" with one route. *)
Lemma Action_first_declaration_witness :
  ∃ w', Action "Update" putRoute account = Ret tt w' ∧
        declared w' 0 "Update" = Some (Some 0) ∧
        (∀ name', name' ≠ "Update" → declared w' 0 name' = declared account 0 name') ∧
        actions w' = [mkAction (Some 0) "Update" [Some 0] None None None] ∧
        Errors w' = [].
Proof.
  apply (Action_first_declaration "Update" putRoute account
           (outcomeWorld (putRoute (declaring 0 "Update" (ensureActions 0 account))))
           0 accountResource); vm_compute; reflexivity.
Defined.

(** X16: a first declaration whose callback reports an error.  The
    declaration returns and stores nothing: when the callback leaves the
    resource alone there is no entry under the name.  What was done before
    the callback is not undone: the action map of the resource is no longer
    nil, even if it was, and the actions are those the callback left, the
    one created for the declaration included. *)
Theorem Action_failed_declaration (name : string) (dsl : DSL) (w mid : World) (r : nat)
    (res : ResourceDefinition) :
  current w = Some (DResource (Some r)) →
  resources w !! r = Some res →
  declared w r name = None →
  dsl (declaring r name (ensureActions r w)) = Ret tt mid →
  succeeded w mid = false →
  resources mid !! r = resources (ensureActions r w) !! r →
  ∃ w', Action name dsl w = Ret tt w' ∧
        declared w' r name = None ∧
        (∃ res' m, resources w' !! r = Some res' ∧ Resource_Actions res' = Some m) ∧
        actions w' = actions mid ∧
        Errors w' = Errors mid.
Proof.
  intros Hc Hr Hd Hrun Hs Hsame.
  rewrite (Action_new_eq name dsl w mid r res Hc Hr Hd Hrun), Hs. simpl.
  destruct (ensureActions_facts r w) as (_ & _ & _ & Hdecl).
  eexists. split; [reflexivity|]. simpl.
  split; [|split; [|done]].
  - rewrite <- Hd, <- (Hdecl name). unfold declared, set_ctxStack; simpl.
    by rewrite Hsame.
  - unfold set_ctxStack; simpl. rewrite Hsame. unfold ensureActions. rewrite Hr.
    destruct (Resource_Actions res) as [m|] eqn:Hm; [by exists res, m|].
    eexists _, ∅. simpl.
    by rewrite list_lookup_insert_eq by (by apply lookup_lt_Some in Hr).
Qed.

(** "Update" declared on "Account", whose action map is nil, with a callback
    that reports an error. *)
Lemma Action_failed_declaration_witness :
  ∃ w', Action "Update" (ReportError "boom") account = Ret tt w' ∧
        declared w' 0 "Update" = None ∧
        (∃ res' m, resources w' !! 0 = Some res' ∧ Resource_Actions res' = Some m) ∧
        actions w' = [mkAction (Some 0) "Update" [] None None None] ∧
        Errors w' = ["boom"].
Proof.
  apply (Action_failed_declaration "Update" (ReportError "boom") account
           (outcomeWorld (ReportError "boom" (declaring 0 "Update" (ensureActions 0 account))))
           0 accountResource); vm_compute; reflexivity.
Defined.

(** X17: a declaration of a name that has an entry, whose callback reports
    an error.  The callback has run against the action of the entry, and
    the declaration returns the world the callback left, its context
    popped: nothing of what the callback did to the action is undone, and
    the entry is not written again. *)
Theorem Action_failed_redeclaration (name : string) (dsl : DSL) (w mid : World) (r : nat)
    (a : ptr) :
  current w = Some (DResource (Some r)) →
  declared w r name = Some a →
  dsl (set_ctxStack (cons (DAction a)) w) = Ret tt mid →
  succeeded w mid = false →
  Action name dsl w = Ret tt (set_ctxStack (drop 1) mid).
Proof.
  intros Hc Hd Hrun Hs.
  rewrite (Action_declared name dsl w r a Hc Hd). unfold bind.
  by rewrite (executeDSL_run dsl _ _ mid Hrun), Hs.
Qed.

(** "Update" declared a second time, with a route that shares its wildcard
    with the path of "Account": the route stays on the action. *)
Lemma Action_failed_redeclaration_witness :
  Action "Update"
         (p <- PUT "/:accountID" ;; Routing exampleExtractWildcards exampleFullPath [p])
         declaredOnce =
  Ret tt (set_ctxStack (drop 1)
            (outcomeWorld
               ((p <- PUT "/:accountID" ;;
                 Routing exampleExtractWildcards exampleFullPath [p])
                  (set_ctxStack (cons (DAction (Some 0))) declaredOnce)))) ∧
  Action_Routes <$>
    actions (outcomeWorld
               ((p <- PUT "/:accountID" ;;
                 Routing exampleExtractWildcards exampleFullPath [p])
                  (set_ctxStack (cons (DAction (Some 0))) declaredOnce))) !! 0
  = Some [Some 0; Some 1].
Proof.
  split; [|vm_compute; reflexivity].
  apply (Action_failed_redeclaration "Update" _ declaredOnce _ 0 (Some 0));
    vm_compute; reflexivity.
Defined.

Lemma ensureActions_frame (r : nat) (w : World) :
  routes (ensureActions r w) = routes w ∧ Design (ensureActions r w) = Design w.
Proof.
  unfold ensureActions. destruct (resources w !! r) as [res|]; [|done].
  by destruct (Resource_Actions res).
Qed.

Lemma ensureActions_map (r : nat) (w : World) (res : ResourceDefinition) (name : string) :
  resources w !! r = Some res →
  declared w r name = None →
  ∃ res0 m0, resources (ensureActions r w) !! r = Some res0 ∧
             Resource_Actions res0 = Some m0 ∧ m0 !! name = None.
Proof.
  intros Hr Hd. unfold declared in Hd. rewrite Hr in Hd. simpl in Hd.
  unfold ensureActions. rewrite Hr.
  destruct (Resource_Actions res) as [m|] eqn:Hm; [by exists res, m|].
  eexists _, ∅. simpl.
  by rewrite list_lookup_insert_eq by (by apply lookup_lt_Some in Hr).
Qed.

(** X18: a first declaration whose callback is [Routing] on routes that
    exist, in the block of a resource of full path [P].  The declaration
    returns, the new action carries the routes in the order given, and the
    errors added are the duplicate wildcard errors of the routes.  The
    action is stored under its name only when there is none: one wildcard
    shared with [P] by one route, and the resource has no entry under the
    name. *)
Theorem Action_with_routes
    (ExtractWildcards : string → list string)
    (FullPath : APIDefinition → list ResourceDefinition → ResourceDefinition → string)
    (name : string) (rts : list ptr) (w : World) (r : nat)
    (res res0 : ResourceDefinition) (P : string) :
  current w = Some (DResource (Some r)) →
  resources w !! r = Some res →
  declared w r name = None →
  resources (ensureActions r w) !! r = Some res0 →
  FullPath (Design w) (resources (ensureActions r w)) res0 = P →
  Forall (validRoute w) rts →
  ∃ w', Action name (Routing ExtractWildcards FullPath rts) w = Ret tt w' ∧
        Errors w' = Errors w ++ routingErrors ExtractWildcards P w rts ∧
        actions w' = actions w ++ [mkAction (Some r) name rts None None None] ∧
        (routingErrors ExtractWildcards P w rts = [] →
         declared w' r name = Some (Some (length (actions w)))) ∧
        (routingErrors ExtractWildcards P w rts ≠ [] →
         declared w' r name = None).
Proof.
  intros Hc Hr Hd Hr0 HP Hv.
  destruct (ensureActions_facts r w) as (Hacts & Herrs & _ & Hdecl).
  destruct (ensureActions_frame r w) as (Hrts & HD).
  destruct (ensureActions_map r w res name Hr Hd) as (res0' & m0 & Hr0' & Hm0 & Hnone).
  rewrite Hr0 in Hr0'. injection Hr0' as <-.
  set (e := ensureActions r w) in *.
  set (act0 := mkAction (Some r) name [] None None None).
  set (w0 := declaring r name e).
  assert (Ha0 : actionAt FullPath w0 (length (actions e)) act0 P).
  { split; [subst w0; simpl; by rewrite lookup_app_r, Nat.sub_diag by lia|].
    exists r, res0. subst w0; simpl. by rewrite HD. }
  assert (Hv0 : Forall (validRoute w0) rts).
  { eapply Forall_impl; [exact Hv|]. intros p (l & rt & -> & Hl).
    exists l, rt. subst w0; simpl. by rewrite Hrts. }
  destruct (Routing_loop ExtractWildcards FullPath rts w0 _ act0 P Ha0 Hv0)
    as (mid & Hloop & Hpost).
  destruct Hpost as (_ & Hres & _ & _ & _ & _ & Hact & Herr & _).
  assert (Hrun : Routing ExtractWildcards FullPath rts w0 = Ret tt mid).
  { unfold Routing, bind. by rewrite (actionDefinition_action true (Some (length (actions e))) w0 eq_refl). }
  assert (Herr' : Errors mid = Errors w ++ routingErrors ExtractWildcards P w rts).
  { rewrite Herr. subst w0; simpl. rewrite Herrs. f_equal. unfold routingErrors.
    apply flat_map_ext. intros p. unfold pathOf. simpl. by rewrite Hrts. }
  assert (Hact' : actions mid = actions w ++ [mkAction (Some r) name rts None None None]).
  { rewrite Hact. subst w0; simpl. rewrite Hacts.
    rewrite insert_app_r_alt, Nat.sub_diag by lia. reflexivity. }
  rewrite (Action_new_eq name _ w mid r res Hc Hr Hd Hrun).
  unfold succeeded. rewrite Herr', length_app.
  destruct (routingErrors ExtractWildcards P w rts) as [|msg errs] eqn:E; simpl.
  - rewrite Nat.add_0_r, Nat.leb_refl. simpl.
    eexists. split.
    { unfold storeAction, bind, deref. simpl. rewrite Hres. subst w0; simpl.
      rewrite Hr0, Hm0. by rewrite (update_ok resources set_resources r _ _ res0) by (simpl; by rewrite Hres). }
    simpl. rewrite Herr', Hact'. split; [by rewrite ?E|]. split; [done|]. split; [|done].
    intros _. unfold declared; simpl. rewrite Hres. subst w0; simpl.
    rewrite list_lookup_insert_eq by (by apply lookup_lt_Some in Hr0). simpl.
    by rewrite lookup_insert_eq.
  - replace (Nat.leb _ _) with false by (symmetry; apply Nat.leb_gt; lia). simpl.
    eexists. split; [reflexivity|]. unfold set_ctxStack; simpl.
    rewrite Herr', Hact'. split; [by rewrite ?E|]. split; [done|]. split; [done|].
    intros _. unfold declared; simpl. rewrite Hres. subst w0; simpl.
    rewrite Hr0. simpl. by rewrite Hm0.
Qed.

(** "Update" declared with the first two routes of the example: the second
    one is reported and "Update" is not stored. *)
Lemma Action_with_routes_witness :
  ∃ w', Action "Update" (Routing exampleExtractWildcards exampleFullPath [Some 0; Some 1])
               accountWithRoutes = Ret tt w' ∧
        Errors w' = [duplicateWildcard "accountID" "/accounts/:accountID"
                       "/:accountID/rename"] ∧
        actions w' = [mkAction (Some 0) "Update" [Some 0; Some 1] None None None] ∧
        declared w' 0 "Update" = None.
Proof.
  destruct (Action_with_routes exampleExtractWildcards exampleFullPath "Update"
              [Some 0; Some 1] accountWithRoutes 0 accountResource
              (set_Resource_Actions (Some ∅) accountResource) "/accounts/:accountID")
    as (w' & Hrun & Herr & Hact & _ & Hnone);
    [reflexivity | reflexivity | reflexivity | reflexivity | reflexivity | |].
  - repeat constructor; unfold validRoute; simpl; eauto.
  - exists w'. split; [exact Hrun|]. split; [exact Herr|]. split; [exact Hact|].
    apply Hnone. vm_compute. discriminate.
Defined.

(** ** Outside the block *)

(** X19: [Action], [Routing], [Payload] (with at most one callback) and
    [Headers] where the innermost context is not the one they need (a
    resource for [Action], an action for [Routing] and [Payload], an action,
    a resource or a response for [Headers]), with the context resolver as
    the design describes it.  Each returns normally having reported one
    context error and done nothing else: no callback runs and the rest of
    the world is as it was. *)
Theorem outside_context (camelize : string → string)
    (ExtractWildcards : string → list string)
    (FullPath : APIDefinition → list ResourceDefinition → ResourceDefinition → string)
    (w : World) :
  ((∀ r, current w ≠ Some (DResource r)) →
   ∀ name dsl, Action name dsl w = Ret tt (addErrors [incompatibleDSL "Resource"] w)) ∧
  ((∀ a, current w ≠ Some (DAction a)) →
   ∀ rts, Routing ExtractWildcards FullPath rts w =
          Ret tt (addErrors [incompatibleDSL "Action"] w)) ∧
  ((∀ a, current w ≠ Some (DAction a)) →
   ∀ p dsls, (length dsls ≤ 1)%nat →
             Payload camelize p dsls w = Ret tt (addErrors [incompatibleDSL "Action"] w)) ∧
  ((∀ a, current w ≠ Some (DAction a)) →
   (∀ r, current w ≠ Some (DResource r)) →
   (∀ r, current w ≠ Some (DResponse r)) →
   ∀ dsl, Headers dsl w = Ret tt (addErrors [incompatibleDSL "Response"] w)).
Proof.
  assert (Hact : (∀ a, current w ≠ Some (DAction a)) →
                 actionDefinition true w =
                 Ret (None, false) (addErrors [incompatibleDSL "Action"] w)).
  { intros H. unfold actionDefinition, bind, gets.
    destruct (current w) as [[]|] eqn:E; try reflexivity. by destruct (H a). }
  assert (Hrsp : (∀ r, current w ≠ Some (DResponse r)) →
                 responseDefinition true w =
                 Ret (None, false) (addErrors [incompatibleDSL "Response"] w)).
  { intros H. unfold responseDefinition, bind, gets.
    destruct (current w) as [[]|] eqn:E; try reflexivity. by destruct (H r). }
  split; [|split; [|split]].
  - intros H name dsl. unfold Action, bind. by rewrite (resourceDefinition_required w H).
  - intros H rts. unfold Routing, bind. by rewrite (Hact H).
  - intros H p dsls Hlen. unfold Payload.
    destruct (Nat.ltb_spec 1 (length dsls)) as [|_]; [lia|].
    unfold bind. by rewrite (Hact H).
  - intros Ha Hr Hs dsl. unfold Headers, bind.
    rewrite (actionDefinition_silent w Ha), (resourceDefinition_silent w Hr).
    by rewrite (Hrsp Hs).
Qed.

(** [Routing] in the block of the resource "Account", not of an action. *)
Lemma outside_context_witness :
  Routing exampleExtractWildcards exampleFullPath [Some 0] accountWithRoutes =
  Ret tt (addErrors [incompatibleDSL "Action"] accountWithRoutes).
Proof.
  apply (proj1 (proj2 (outside_context exampleCamelize exampleExtractWildcards
                         exampleFullPath accountWithRoutes))).
  intros a. simpl. discriminate.
Defined.
